(** * A shallow embedding of lib/Bcp.js (node-bcp)

    The module drives Microsoft's [bcp] bulk-copy executable: it builds the
    command-line argument list from a [Bcp] configuration, sequences the
    steps of [bulkExport] and [prepareBulkInsert], and decodes the exported
    delimited file into rows.

    Modelling conventions:
    - JS strings are [string] (characters as [ascii]); [undefined] options are
      [None].  A string option is truthy when it is [Some s] with [s <> ""];
      a numeric option is truthy when it is [Some z] with [z <> 0].
    - The argument array of [getCommonArgs] holds strings and numbers
      ([args.push(Number(...))]): its elements are [Arg].
    - The results of the JS built-ins [Number(s)] and [new Date(s)] are kept
      symbolic ([VNumber s], [VDate s]): the source only dispatches on the
      type tag, it does not parse numbers itself.
    - External effects (the child process, the file system, the format-file
      collaborator) are inputs of the pipelines; the pipelines return the
      trace of effects they performed together with their outcome. *)

From Stdlib Require Import Bool Arith ZArith List Lia.
From Stdlib Require Import Strings.String Strings.Ascii Numbers.DecimalString.
Import ListNotations.
Open Scope string_scope.

(* ------------------------------------------------------------------ *)
(** ** JS helpers *)

Definition str_truthy (o : option string) : bool :=
  match o with Some s => negb (String.eqb s "") | None => false end.

Definition num_truthy (o : option Z) : bool :=
  match o with Some z => negb (Z.eqb z 0) | None => false end.

(** [String(n)] for an integral JS number. *)
Definition Z_to_string (z : Z) : string :=
  NilEmpty.string_of_int (Z.to_int z).

Definition chr (n : nat) : string := String (ascii_of_nat n) EmptyString.

Definition hex_digit (n : nat) : string :=
  match n with
  | 0 => "0" | 1 => "1" | 2 => "2" | 3 => "3" | 4 => "4" | 5 => "5"
  | 6 => "6" | 7 => "7" | 8 => "8" | 9 => "9" | 10 => "a" | 11 => "b"
  | 12 => "c" | 13 => "d" | 14 => "e" | _ => "f"
  end.

(** The escape JSON.stringify applies to one character of a string. *)
Definition json_escape_char (c : ascii) : string :=
  let n := nat_of_ascii c in
  if Nat.eqb n 34 then "\" ++ chr 34
  else if Nat.eqb n 92 then "\\"
  else if Nat.eqb n 8 then "\b"
  else if Nat.eqb n 9 then "\t"
  else if Nat.eqb n 10 then "\n"
  else if Nat.eqb n 12 then "\f"
  else if Nat.eqb n 13 then "\r"
  else if Nat.ltb n 32 then "\u00" ++ hex_digit (n / 16) ++ hex_digit (n mod 16)
  else String c EmptyString.

Fixpoint json_escape (s : string) : string :=
  match s with
  | EmptyString => EmptyString
  | String c r => json_escape_char c ++ json_escape r
  end.

(** [JSON.stringify(s)] for a string [s]. *)
Definition json_stringify (s : string) : string :=
  chr 34 ++ json_escape s ++ chr 34.

(** [list.join(sep)] *)
Fixpoint join (sep : string) (l : list string) : string :=
  match l with
  | [] => ""
  | [x] => x
  | x :: r => x ++ sep ++ join sep r
  end.

(* ------------------------------------------------------------------ *)
(** ** The configuration ([function Bcp (options)]) *)

Record Bcp := mkBcp {
  exec : string;
  tmp : string;
  database : option string;
  schema : string;
  packetSize : option Z;
  batchSize : option Z;
  unicode : bool;
  codePage : option string;
  errorFile : option string;
  useIdentity : bool;
  firstRow : option Z;
  order : option string;
  rowsPerBatch : option Z;
  kbPerBatch : option Z;
  tabLock : bool;
  checkConstraints : bool;
  fireTriggers : bool;
  inputFile : option string;
  keepNulls : bool;
  readOnly : bool;
  lastRow : option Z;
  maxErrors : option Z;
  password : option string;
  quotedIdentifiers : bool;
  rowTerminator : option string;
  regional : bool;
  server : option string;
  fieldTerminator : option string;
  trusted : bool;
  user : option string
}.

(* ------------------------------------------------------------------ *)
(** ** getCommonArgs

    The source pushes onto one array in a fixed sequence of [if] blocks;
    each block is one segment below and the array is their concatenation. *)

Inductive Arg := AStr (s : string) | ANum (n : Z).

Definition numArg (flag : string) (o : option Z) : list Arg :=
  match o with
  | Some z => if negb (Z.eqb z 0) then [AStr flag; ANum z] else []
  | None => []
  end.

Definition quotedArg (flag : string) (o : option string) : list Arg :=
  match o with
  | Some s => if negb (String.eqb s "") then [AStr flag; AStr (json_stringify s)] else []
  | None => []
  end.

Definition boolArg (flag : string) (b : bool) : list Arg :=
  if b then [AStr flag] else [].

(** The [switch (term[0])] of the row and field terminators. *)
Definition termArg (flag : string) (o : option string) (omitFormat : bool) : list Arg :=
  match o with
  | Some s =>
      if negb (String.eqb s "") && negb omitFormat then
        match s with
        | String c _ =>
            if Ascii.eqb c "-" || Ascii.eqb c "/" then [AStr (flag ++ s)]
            else [AStr flag; AStr (json_stringify s)]
        | EmptyString => [AStr flag; AStr (json_stringify s)]
        end
      else []
  | None => []
  end.

Definition formatArgs (bcp : Bcp) (omitFormat : bool) : list Arg :=
  if negb omitFormat then (if unicode bcp then [AStr "-w"] else [AStr "-c"]) else [].

Definition codePageArgs (bcp : Bcp) (omitFormat : bool) : list Arg :=
  if str_truthy (codePage bcp) && negb omitFormat then quotedArg "-C" (codePage bcp) else [].

Definition authArgs (bcp : Bcp) : list Arg :=
  if trusted bcp then [AStr "-T"]
  else quotedArg "-U" (user bcp) ++ quotedArg "-P" (password bcp).

Definition hintList (bcp : Bcp) : list string :=
  (if str_truthy (order bcp) then
     match order bcp with Some o => ["ORDER(" ++ o ++ ")"] | None => [] end
   else [])
  ++ (if num_truthy (rowsPerBatch bcp) then
        match rowsPerBatch bcp with
        | Some n => ["ROWS_PER_BATCH=" ++ Z_to_string n] | None => [] end
      else [])
  ++ (if num_truthy (kbPerBatch bcp) then
        match kbPerBatch bcp with
        | Some n => ["KILOBYTES_PER_BATCH=" ++ Z_to_string n] | None => [] end
      else [])
  ++ (if tabLock bcp then ["TABLOCK"] else [])
  ++ (if checkConstraints bcp then ["CHECK_CONSTRAINTS"] else [])
  ++ (if fireTriggers bcp then ["FIRE_TRIGGERS"] else []).

Definition hintArgs (bcp : Bcp) : list Arg :=
  match hintList bcp with
  | [] => []
  | hs => [AStr "-h"; AStr (json_stringify (join "," hs))]
  end.

(** Everything pushed before the authentication block. *)
Definition optionArgs (bcp : Bcp) (omitFormat : bool) : list Arg :=
  numArg "-a" (packetSize bcp)
  ++ numArg "-b" (batchSize bcp)
  ++ formatArgs bcp omitFormat
  ++ codePageArgs bcp omitFormat
  ++ quotedArg "-e" (errorFile bcp)
  ++ boolArg "-E" (useIdentity bcp)
  ++ numArg "-F" (firstRow bcp)
  ++ quotedArg "-i" (inputFile bcp)
  ++ (if readOnly bcp then [AStr "-K"; AStr "ReadOnly"] else [])
  ++ boolArg "-k" (keepNulls bcp)
  ++ numArg "-L" (lastRow bcp)
  ++ numArg "-m" (maxErrors bcp)
  ++ boolArg "-R" (regional bcp)
  ++ termArg "-r" (rowTerminator bcp) omitFormat
  ++ quotedArg "-S" (server bcp)
  ++ termArg "-t" (fieldTerminator bcp) omitFormat.

Definition getCommonArgs (bcp : Bcp) (omitFormat : bool) : list Arg :=
  optionArgs bcp omitFormat ++ authArgs bcp ++ hintArgs bcp.

(** [getQualifiedTable] *)
Definition getQualifiedTable (bcp : Bcp) (table : string) : string :=
  let arg := "[" ++ table ++ "]" in
  let arg := if negb (String.eqb (schema bcp) "") then "[" ++ schema bcp ++ "]." ++ arg else arg in
  let arg := if str_truthy (database bcp) then
               match database bcp with Some d => "[" ++ d ++ "]." ++ arg | None => arg end
             else arg in
  if quotedIdentifiers bcp then json_stringify arg else arg.

(* ------------------------------------------------------------------ *)
(** ** Field codec ([Bcp.typesMap], [fieldDeserialize]) *)

Inductive Cons := CBoolean | CNumber | CDate | CNone.

(** [Bcp.typesMap[type]]; any other tag is looked up as [undefined]
    (or as an [Object.prototype] member, which the [switch] treats alike). *)
Definition typesMap (ty : string) : Cons :=
  if String.eqb ty "SQLBIT" then CBoolean
  else if String.eqb ty "SQLTINYINT" then CNumber
  else if String.eqb ty "SQLSMALLINT" then CNumber
  else if String.eqb ty "SQLINT" then CNumber
  else if String.eqb ty "SQLBIGINT" then CNumber
  else if String.eqb ty "SQLFLT4" then CNumber
  else if String.eqb ty "SQLFLT8" then CNumber
  else if String.eqb ty "SQLDATETIME" then CDate
  else if String.eqb ty "SQLDATETIM4" then CDate
  else if String.eqb ty "SQLDATETIM8" then CDate
  else CNone.

(** A Field of the format file, as far as this module reads it. *)
Record Field := mkField {
  name : string;
  type : string;
  terminator : string;
  inImport : bool
}.

(** A decoded JS value: [VNumber s] is [Number(s)], [VDate s] is [new Date(s)]. *)
Inductive Value :=
| VNull
| VStr (s : string)
| VBool (b : bool)
| VNumber (s : string)
| VDate (s : string).

Definition NUL : string := String (ascii_of_nat 0) EmptyString.

Definition fieldDeserialize (value : string) (field : Field) : Value :=
  let cons := typesMap (type field) in
  if String.eqb value "" then VNull
  else if String.eqb value NUL then VStr ""
  else match cons with
       | CDate => VDate value
       | CNumber => VNumber value
       | CBoolean => VBool (String.eqb value "1")
       | CNone => VStr value
       end.

(* ------------------------------------------------------------------ *)
(** ** Rows: JS objects built by property assignment *)

Definition Row := list (string * Value).

(** [o[k] = v]: overwrite an existing key in place, append a new one. *)
Fixpoint obj_set (o : Row) (k : string) (v : Value) : Row :=
  match o with
  | [] => [(k, v)]
  | (k', v') :: r => if String.eqb k k' then (k, v) :: r else (k', v') :: obj_set r k v
  end.

(* ------------------------------------------------------------------ *)
(** ** The reader ([Bcp.readExport]) *)

(** [data.indexOf(t, i)], [None] standing for [-1]. *)
Fixpoint find_from (t s : string) (k : nat) : option nat :=
  if String.prefix t s then Some k
  else match s with
       | EmptyString => None
       | String _ s' => find_from t s' (S k)
       end.

Definition indexOf (data t : string) (i : nat) : option nat :=
  if String.eqb t "" then Some (Nat.min i (String.length data))
  else find_from t (substring i (String.length data - i) data) i.

(** [data.substring(i, dex)] for [i <= dex]. *)
Definition slice (data : string) (i dex : nat) : string :=
  substring i (dex - i) data.

(** The inner [for] loop over the fields: [None] is [break data_loop],
    otherwise the finished object and the new offset. *)
Fixpoint row_loop (data : string) (fields : list Field) (i : nat) (o : Row)
  : option (Row * nat) :=
  match fields with
  | [] => Some (o, i)
  | f :: fs =>
      match indexOf data (terminator f) i with
      | None => None
      | Some dex =>
          row_loop data fs (dex + String.length (terminator f))
                   (obj_set o (name f) (fieldDeserialize (slice data i dex) f))
      end
  end.

(** The outer [while (i < data.length)] loop, run for at most [fuel]
    iterations; [None] means it was still running when the fuel ran out. *)
Fixpoint data_loop (fuel : nat) (data : string) (fields : list Field) (i : nat)
  (rows : list Row) : option (list Row) :=
  match fuel with
  | O => None
  | S fuel' =>
      if Nat.ltb i (String.length data) then
        match row_loop data fields i [] with
        | None => Some rows
        | Some (o, i') => data_loop fuel' data fields i' (rows ++ [o])
        end
      else Some rows
  end.

(** [Bcp.readExport] calls back with [rows] on the decoded file contents. *)
Definition readExport_returns (data : string) (fields : list Field) (rows : list Row) : Prop :=
  exists fuel, data_loop fuel data fields 0 [] = Some rows.

(** The loop of [Bcp.readExport] never exits. *)
Definition readExport_diverges (data : string) (fields : list Field) : Prop :=
  forall fuel, data_loop fuel data fields 0 [] = None.

(** The bytes of one complete row: each field's raw slice followed by the
    field's terminator. *)
Fixpoint enc_row (fs : list Field) (vs : list string) : string :=
  match fs, vs with
  | f :: fs', v :: vs' => v ++ terminator f ++ enc_row fs' vs'
  | _, _ => ""
  end.

Definition enc_rows (fs : list Field) (rows : list (list string)) : string :=
  fold_right (fun vs acc => enc_row fs vs ++ acc) "" rows.

Definition opt_nat_eqb (a b : option nat) : bool :=
  match a, b with
  | Some x, Some y => Nat.eqb x y
  | None, None => true
  | _, _ => false
  end.

(** A complete row: one slice per field, and the first occurrence of each
    field's terminator in [slice ++ terminator] is the one that ends it. *)
Fixpoint row_ok (fs : list Field) (vs : list string) : bool :=
  match fs, vs with
  | [], [] => true
  | f :: fs', v :: vs' =>
      opt_nat_eqb (indexOf (v ++ terminator f) (terminator f) 0) (Some (String.length v))
      && row_ok fs' vs'
  | _, _ => false
  end.

(** The object the inner loop builds from the slices of one row. *)
Fixpoint decode_row (fs : list Field) (vs : list string) (o : Row) : Row :=
  match fs, vs with
  | f :: fs', v :: vs' => decode_row fs' vs' (obj_set o (name f) (fieldDeserialize v f))
  | _, _ => o
  end.

Definition TAB := chr 9.
Definition LF := chr 10.


(* ------------------------------------------------------------------ *)
(** ** Options objects and [mergeOptions] *)

Inductive JsVal := JUndef | JNull | JBool (b : bool) | JNum (z : Z) | JStr (s : string) | JObj.

Definition truthy (v : JsVal) : bool :=
  match v with
  | JUndef | JNull => false
  | JBool b => b
  | JNum z => negb (Z.eqb z 0)
  | JStr s => negb (String.eqb s "")
  | JObj => true
  end.

(** A plain JS object: its own properties in insertion order. *)
Definition Obj := list (string * JsVal).

Fixpoint obj_get (o : Obj) (k : string) : option JsVal :=
  match o with
  | [] => None
  | (k', v) :: r => if String.eqb k k' then Some v else obj_get r k
  end.

(** [o.k]: a missing property reads as [undefined]. *)
Definition prop (o : Obj) (k : string) : JsVal :=
  match obj_get o k with Some v => v | None => JUndef end.

Fixpoint obj_put (o : Obj) (k : string) (v : JsVal) : Obj :=
  match o with
  | [] => [(k, v)]
  | (k', v') :: r => if String.eqb k k' then (k, v) :: r else (k', v') :: obj_put r k v
  end.

(** [mergeOptions(defaults, overrides)]; [None] is a falsy [overrides]. *)
Definition mergeOptions (defaults : Obj) (overrides : option Obj) : Obj :=
  match overrides with
  | None => defaults
  | Some ov =>
      map (fun kv => match obj_get ov (fst kv) with
                     | Some v => (fst kv, v)
                     | None => kv
                     end) defaults
  end.


(* ------------------------------------------------------------------ *)
(** ** Paths, commands and the summary line of bcp *)

(** [Path.join(dir, base)] (without the normalisation of [.] and [..]). *)
Definition path_join (dir base : string) : string := dir ++ "/" ++ base.

(** [tempFile(bcp)]; [stamp] is [time + '_' + random + '_' + pid]. *)
Definition tempFile (bcp : Bcp) (stamp : string) : string := path_join (tmp bcp) stamp.

Definition arg_to_string (a : Arg) : string :=
  match a with AStr s => s | ANum z => Z_to_string z end.

Definition join_args (args : list Arg) : string := join " " (map arg_to_string args).

Definition is_digit (c : ascii) : bool :=
  let n := nat_of_ascii c in Nat.leb 48 n && Nat.leb n 57.

(** The maximal run of digits at the front of [s], and what follows it. *)
Fixpoint digits_prefix (s : string) : string * string :=
  match s with
  | EmptyString => (EmptyString, EmptyString)
  | String c r =>
      if is_digit c then let (ds, rest) := digits_prefix r in (String c ds, rest)
      else (EmptyString, s)
  end.

Fixpoint digits_value (acc : Z) (s : string) : Z :=
  match s with
  | EmptyString => acc
  | String c r => digits_value (acc * 10 + Z.of_nat (nat_of_ascii c - 48)) r
  end.

(** [/(\d+) rows copied\./.exec(stdout)], then [Number(match[1])]: the
    leftmost position where a digit run is followed by [" rows copied."]. *)
Fixpoint rows_copied (s : string) : option Z :=
  match s with
  | EmptyString => None
  | String _ r =>
      let (ds, rest) := digits_prefix s in
      if negb (String.eqb ds "") && String.prefix " rows copied." rest
      then Some (digits_value 0 ds)
      else rows_copied r
  end.


(* ------------------------------------------------------------------ *)
(** ** The world the pipelines act on *)

(** A loaded [FormatFile] (collaborator module). *)
Record FormatFile := mkFormatFile {
  fields : list Field;
  encoding : string;
  filename : string
}.

Inductive Event :=
| EvMkdirs (paths : list string)       (* ensureDirectories *)
| EvExec (cmd : string)                (* ChildProcess.exec *)
| EvLoadFormat (file : string)         (* FormatFile.fromFile *)
| EvReadFile (file : string)           (* Fs.readFile *)
| EvUnlink (file : string)             (* Fs.unlink *)
| EvNewImportFile (file : string).     (* new ImportFile(...) *)

(** What the outside world answers to each effect of one run. *)
Record Env := mkEnv {
  env_stamp : string;                   (* the random part of tempFile *)
  env_mkdirs_ok : bool;
  env_format_exec_ok : bool;            (* bcp ... format nul *)
  env_format : option FormatFile;       (* FormatFile.fromFile *)
  env_out_exec : option string;         (* bcp ... out: its stdout *)
  env_file : option string;             (* Fs.readFile of the export file *)
  env_unlink_ok : string -> bool
}.

Inductive Error :=
| ErrMessage (msg : string)   (* new Error(msg) *)
| ErrExternal                 (* an error passed on from fs, child_process or FormatFile *)
| ErrStillRunning             (* the reader loop had not finished within the fuel *)
| ErrTypeError.               (* a TypeError thrown by a Node built-in *)

Inductive Outcome (A : Type) := Ok (a : A) | Err (e : Error).
Arguments Ok {A} a.
Arguments Err {A} e.

(** [formatGenerate(bcp, table, file, args, callback)] *)
Definition formatGenerate (bcp : Bcp) (env : Env) (table file : string) (args : list Arg)
  : list Event * Outcome FormatFile :=
  let cmd := exec bcp ++ " " ++ table ++ " format nul -x -f " ++ json_stringify file
             ++ " " ++ join_args args in
  if env_format_exec_ok env then
    match env_format env with
    | Some f => ([EvExec cmd; EvLoadFormat file], Ok f)
    | None => ([EvExec cmd; EvLoadFormat file], Err ErrExternal)
    end
  else ([EvExec cmd], Err ErrExternal).

(* ------------------------------------------------------------------ *)
(** ** [Bcp.prototype.bulkExport] *)

Record Details := mkDetails {
  d_formatFile : string;
  d_exportFile : string;
  d_rowCount : Z;
  d_stdout : option string
}.

(** [v || dflt] for a path option (paths are JS strings). *)
Definition or_path (v : JsVal) (dflt : string) : string :=
  match v with
  | JStr s => if negb (String.eqb s "") then s else dflt
  | _ => dflt
  end.

Definition exportDefaults : Obj := [("read", JBool true); ("keepFiles", JBool false)].

(** The options object after the first lines of [bulkExport]. *)
Definition exportOptions (overrides : option Obj) : Obj :=
  let options := mergeOptions exportDefaults overrides in
  if negb (truthy (prop options "read")) then obj_put options "keepFiles" (JBool true)
  else options.

(** The cleanup step: [Athena.parallel] of the two [Fs.unlink] calls. *)
Definition cleanup (env : Env) (f1 f2 : string) : list Event * bool :=
  ([EvUnlink f1; EvUnlink f2], env_unlink_ok env f1 && env_unlink_ok env f2).

(** The waterfall of [bulkExport]; [fuel] bounds the loop of [readExport].
    The result is [(rows, details)], [rows] being [null] when not read. *)
Definition bulkExport (bcp : Bcp) (env : Env) (fuel : nat) (table : string)
  (overrides : option Obj) : list Event * Outcome (option (list Row) * Details) :=
  let options := exportOptions overrides in
  let common := getCommonArgs bcp false in
  let table := getQualifiedTable bcp table in
  let base := tempFile bcp (env_stamp env) in
  let formatFile := or_path (prop options "formatFile") (base ++ "_format.xml") in
  let exportFile := or_path (prop options "exportFile") (base ++ "_export.dat") in
  let ev1 := [EvMkdirs [formatFile; exportFile]] in
  if negb (env_mkdirs_ok env) then (ev1, Err ErrExternal) else
  let (ev2, fres) := formatGenerate bcp env table formatFile common in
  match fres with
  | Err e => ((ev1 ++ ev2)%list, Err e)
  | Ok format =>
    let cmd := exec bcp ++ " " ++ table ++ " out " ++ json_stringify exportFile
               ++ " " ++ join_args common in
    let ev3 := (ev1 ++ ev2 ++ [EvExec cmd])%list in
    match env_out_exec env with
    | None => (ev3, Err ErrExternal)
    | Some stdout =>
      let rowCount := match rows_copied stdout with Some n => n | None => 0%Z end in
      let details := mkDetails formatFile exportFile rowCount (Some stdout) in
      let read_step : list Event * Outcome (option (list Row)) :=
        if truthy (prop options "read") then
          match env_file env with
          | None => ([EvReadFile exportFile], Err ErrExternal)
          | Some data =>
              match data_loop fuel data (fields format) 0 [] with
              | Some rows => ([EvReadFile exportFile], Ok (Some rows))
              | None => ([EvReadFile exportFile], Err ErrStillRunning)
              end
          end
        else ([], Ok None) in
      let (ev4, rres) := read_step in
      match rres with
      | Err e => ((ev3 ++ ev4)%list, Err e)
      | Ok rows =>
        if truthy (prop options "keepFiles") then ((ev3 ++ ev4)%list, Ok (rows, details))
        else
          let (ev5, ok) := cleanup env formatFile exportFile in
          ((ev3 ++ ev4 ++ ev5)%list, if ok then Ok (rows, details) else Err ErrExternal)
      end
    end
  end.

(* ------------------------------------------------------------------ *)
(** ** [Bcp.prototype.prepareBulkInsert] *)

(** The lower case of one character with a code below 256, as
    [String.prototype.toLowerCase] gives it: the capitals [A]-[Z] (65-90),
    [\u00C0]-[\u00D6] (192-214) and [\u00D8]-[\u00DE] (216-222) map to the
    character 32 places further; every other character of this range
    (including [\u00D7], the multiplication sign) is its own lower case. *)
Definition lower_char (c : ascii) : ascii :=
  let n := nat_of_ascii c in
  if (Nat.leb 65 n && Nat.leb n 90) || (Nat.leb 192 n && Nat.leb n 214)
     || (Nat.leb 216 n && Nat.leb n 222)
  then ascii_of_nat (n + 32) else c.

(** [s.toLowerCase()] *)
Fixpoint toLowerCase (s : string) : string :=
  match s with
  | EmptyString => EmptyString
  | String c r => String (lower_char c) (toLowerCase r)
  end.

(** [list.indexOf(x)], [None] standing for [-1]. *)
Fixpoint list_indexOf (l : list string) (x : string) : option nat :=
  match l with
  | [] => None
  | y :: r => if String.eqb x y then Some 0
              else match list_indexOf r x with Some k => Some (S k) | None => None end
  end.

(** [fields[dex].name = col; fields[dex].inImport = true] *)
Fixpoint rename_at (fs : list Field) (dex : nat) (col : string) : list Field :=
  match fs, dex with
  | [], _ => []
  | f :: r, 0 => mkField col (type f) (terminator f) true :: r
  | f :: r, S d => f :: rename_at r d col
  end.

(** The column check of the third waterfall step: the loop over [columns]
    against the lower-cased field names taken before the loop. *)
Fixpoint checkColumns (fullTable : string) (origFieldNames : list string)
  (fs : list Field) (columns : list string) : Outcome (list Field) :=
  match columns with
  | [] => Ok fs
  | col :: rest =>
      match list_indexOf origFieldNames (toLowerCase col) with
      | None => Err (ErrMessage (fullTable ++ " does not contain column " ++ col))
      | Some dex => checkColumns fullTable origFieldNames (rename_at fs dex col) rest
      end
  end.

(** The handle [new ImportFile(bcp, format, table, file, encoding)]. *)
Record ImportFile := mkImportFile {
  imp_fields : list Field;
  imp_table : string;
  imp_file : string;
  imp_encoding : string
}.

Definition importDefaults (base : string) : Obj :=
  [("formatFile", JStr (base ++ "_format.xml")); ("importFile", JStr (base ++ "_import.dat"))].

(** A path handed to [Path.resolve]: a string is used as it is (the empty
    string included); any other value makes [Path.resolve] throw a
    [TypeError]. *)
Definition path_arg (v : JsVal) : option string :=
  match v with JStr s => Some s | _ => None end.

(** The waterfall of [prepareBulkInsert].  Its first step,
    [ensureDirectories(options.formatFile, options.importFile, cb)], resolves
    both paths before creating any directory. *)
Definition prepareBulkInsert (bcp : Bcp) (env : Env) (table : string)
  (columns : list string) (overrides : option Obj) : list Event * Outcome ImportFile :=
  let base := tempFile bcp (env_stamp env) in
  let options := mergeOptions (importDefaults base) overrides in
  let common := getCommonArgs bcp false in
  let fullTable := getQualifiedTable bcp table in
  match path_arg (prop options "formatFile"), path_arg (prop options "importFile") with
  | None, _ | _, None => ([], Err ErrTypeError)
  | Some formatFile, Some importFile =>
  let ev1 := [EvMkdirs [formatFile; importFile]] in
  if negb (env_mkdirs_ok env) then (ev1, Err ErrExternal) else
  let (ev2, fres) := formatGenerate bcp env fullTable formatFile common in
  match fres with
  | Err e => ((ev1 ++ ev2)%list, Err e)
  | Ok format =>
      let origFieldNames := map (fun f => toLowerCase (name f)) (fields format) in
      match checkColumns fullTable origFieldNames (fields format) columns with
      | Err e => ((ev1 ++ ev2)%list, Err e)
      | Ok fs =>
          ((ev1 ++ ev2 ++ [EvNewImportFile importFile])%list,
           Ok (mkImportFile fs table importFile
                 (if unicode bcp then "ucs2" else "ascii")))
      end
  end
  end.

(* ------------------------------------------------------------------ *)
(** ** A configuration built from [new Bcp({})] *)

Definition defaultBcp : Bcp :=
  mkBcp "bcp" "/home/user/.bcp" None "dbo" None None true None None false None
        None None None false false false None false false None None None false
        None false None None false None.

(** The hints as the spec lists them: fixed order, unset ones left out. *)
Definition spec_hints (bcp : Bcp) : list string :=
  map snd (filter fst
    [(str_truthy (order bcp),
      "ORDER(" ++ match order bcp with Some o => o | None => "" end ++ ")");
     (num_truthy (rowsPerBatch bcp),
      "ROWS_PER_BATCH=" ++ match rowsPerBatch bcp with Some n => Z_to_string n | None => "" end);
     (num_truthy (kbPerBatch bcp),
      "KILOBYTES_PER_BATCH=" ++ match kbPerBatch bcp with Some n => Z_to_string n | None => "" end);
     (tabLock bcp, "TABLOCK");
     (checkConstraints bcp, "CHECK_CONSTRAINTS");
     (fireTriggers bcp, "FIRE_TRIGGERS")]).

(** Configurations that differ from [b] in a few options. *)
Definition setTerms (b : Bcp) (r f : option string) : Bcp :=
  mkBcp (exec b) (tmp b) (database b) (schema b) (packetSize b) (batchSize b)
        (unicode b) (codePage b) (errorFile b) (useIdentity b) (firstRow b)
        (order b) (rowsPerBatch b) (kbPerBatch b) (tabLock b) (checkConstraints b)
        (fireTriggers b) (inputFile b) (keepNulls b) (readOnly b) (lastRow b)
        (maxErrors b) (password b) (quotedIdentifiers b) r (regional b)
        (server b) f (trusted b) (user b).

Definition setAuth (b : Bcp) (t : bool) (u p : option string) : Bcp :=
  mkBcp (exec b) (tmp b) (database b) (schema b) (packetSize b) (batchSize b)
        (unicode b) (codePage b) (errorFile b) (useIdentity b) (firstRow b)
        (order b) (rowsPerBatch b) (kbPerBatch b) (tabLock b) (checkConstraints b)
        (fireTriggers b) (inputFile b) (keepNulls b) (readOnly b) (lastRow b)
        (maxErrors b) p (quotedIdentifiers b) (rowTerminator b) (regional b)
        (server b) (fieldTerminator b) t u.

Definition setHints (b : Bcp) (o : option string) (rpb kpb : option Z) (tl cc ft : bool) : Bcp :=
  mkBcp (exec b) (tmp b) (database b) (schema b) (packetSize b) (batchSize b)
        (unicode b) (codePage b) (errorFile b) (useIdentity b) (firstRow b)
        o rpb kpb tl cc ft (inputFile b) (keepNulls b) (readOnly b) (lastRow b)
        (maxErrors b) (password b) (quotedIdentifiers b) (rowTerminator b) (regional b)
        (server b) (fieldTerminator b) (trusted b) (user b).

Definition envOk (stamp : string) (fmt : FormatFile) (stdout data : string) : Env :=
  mkEnv stamp true true (Some fmt) (Some stdout) (Some data) (fun _ => true).

Definition fmtId : FormatFile :=
  mkFormatFile [mkField "id" "SQLINT" LF false] "ucs2" "".

Definition fieldsIntBit : list Field :=
  [mkField "f0" "SQLINT" TAB false; mkField "f1" "SQLBIT" LF false].

(** The same world, with [bcp ... out] printing [s]. *)
Definition setStdout (env : Env) (s : string) : Env :=
  mkEnv (env_stamp env) (env_mkdirs_ok env) (env_format_exec_ok env) (env_format env)
        (Some s) (env_file env) (env_unlink_ok env).

Definition is_ok {A} (o : Outcome A) : bool :=
  match o with Ok _ => true | Err _ => false end.

(* ------------------------------------------------------------------ *)
(** ** [Bcp.prototype.bulkInsert] *)

Definition insertDefaults : Obj := [("keepFiles", JBool false)].

(** The waterfall of [bulkInsert]; [env_out_exec env] is the answer of the
    [bcp ... in] run and [env_unlink_ok] that of [Fs.unlink]. *)
Definition bulkInsert (bcp : Bcp) (env : Env) (importFilename : string)
  (format : FormatFile) (table : string) (overrides : option Obj)
  : list Event * Outcome unit :=
  let options := mergeOptions insertDefaults overrides in
  let common := getCommonArgs bcp true in
  let table := getQualifiedTable bcp table in
  let cmd := exec bcp ++ " " ++ table ++ " in " ++ json_stringify importFilename
             ++ " -f " ++ json_stringify (filename format) ++ " " ++ join_args common in
  match env_out_exec env with
  | None => ([EvExec cmd], Err ErrExternal)
  | Some _ =>
      if truthy (prop options "keepFiles") then ([EvExec cmd], Ok tt)
      else
        let (ev, ok) := cleanup env (filename format) importFilename in
        (EvExec cmd :: ev, if ok then Ok tt else Err ErrExternal)
  end.

(* ------------------------------------------------------------------ *)
(** ** Reading back a JSON string literal (used to state that the quoting
    of option values loses nothing) *)

Definition hex_val (c : ascii) : option nat :=
  let n := nat_of_ascii c in
  if Nat.leb 48 n && Nat.leb n 57 then Some (n - 48)
  else if Nat.leb 97 n && Nat.leb n 102 then Some (n - 87)
  else None.

(** The body of a JSON string literal (between the quotes), unescaped. *)
Fixpoint json_unescape (s : string) : option string :=
  match s with
  | EmptyString => Some EmptyString
  | String c r =>
      if Ascii.eqb c "\" then
        match r with
        | String d r' =>
            let k := fun (x : ascii) =>
                       option_map (String x) (json_unescape r') in
            if Ascii.eqb d (ascii_of_nat 34) then k d
            else if Ascii.eqb d "\" then k d
            else if Ascii.eqb d "b" then k (ascii_of_nat 8)
            else if Ascii.eqb d "t" then k (ascii_of_nat 9)
            else if Ascii.eqb d "n" then k (ascii_of_nat 10)
            else if Ascii.eqb d "f" then k (ascii_of_nat 12)
            else if Ascii.eqb d "r" then k (ascii_of_nat 13)
            else if Ascii.eqb d "u" then
              match r' with
              | String z1 (String z2 (String h1 (String h2 r''))) =>
                  match hex_val z1, hex_val z2, hex_val h1, hex_val h2 with
                  | Some a, Some b, Some x, Some y =>
                      option_map (String (ascii_of_nat (((a * 16 + b) * 16 + x) * 16 + y)))
                                 (json_unescape r'')
                  | _, _, _, _ => None
                  end
              | _ => None
              end
            else None
        | EmptyString => None
        end
      else if Ascii.eqb c (ascii_of_nat 34) then None
      else option_map (String c) (json_unescape r)
  end.

(** [JSON.parse] of a string literal. *)
Definition json_parse_string (s : string) : option string :=
  match s with
  | String q r =>
      if Ascii.eqb q (ascii_of_nat 34) then
        match String.length r with
        | O => None
        | S n =>
            if String.eqb (substring n 1 r) (chr 34) then json_unescape (substring 0 n r)
            else None
        end
      else None
  | EmptyString => None
  end.

Definition no_digits (s : string) : bool :=
  forallb (fun c => negb (is_digit c)) (list_ascii_of_string s).

Definition all_digits (s : string) : bool :=
  forallb is_digit (list_ascii_of_string s).

(* ------------------------------------------------------------------ *)
(** ** Token classes of the argument list *)

(** The flags [getCommonArgs] may push besides the format switches
    ([-w], [-c], [-C]) and the terminators ([-r...], [-t...]). *)
Definition plain_flags : list string :=
  ["-a"; "-b"; "-e"; "-E"; "-F"; "-i"; "-K"; "ReadOnly"; "-k"; "-L"; "-m"; "-R";
   "-S"; "-T"; "-U"; "-P"; "-h"].

Definition plain (a : Arg) : Prop :=
  (exists n, a = ANum n) \/ (exists s, a = AStr (json_stringify s))
  \/ (exists f, a = AStr f /\ In f plain_flags).

(** What a token that is not a format switch nor a terminator is not. *)
Definition not_format (a : Arg) : Prop :=
  a <> AStr "-w" /\ a <> AStr "-c" /\ a <> AStr "-C"
  /\ forall s, a <> AStr ("-r" ++ s)%string /\ a <> AStr ("-t" ++ s)%string.

(* ================================================================== *)
(** * Lemmas on the argument builder *)

(** The flags no token of [optionArgs] can be equal to. *)
Definition reserved : list string := ["-U"; "-P"; "-h"; "-T"].

Definition clean (a : Arg) : Prop := forall x, In x reserved -> a <> AStr x.

Lemma json_head (s : string) :
  json_stringify s = String (ascii_of_nat 34) (json_escape s ++ chr 34).
Proof. reflexivity. Qed.

Lemma clean_json (s : string) : clean (AStr (json_stringify s)).
Proof.
  intros x Hx H; rewrite json_head in H.
  simpl in Hx; repeat destruct Hx as [<- | Hx]; try contradiction; discriminate.
Qed.

Ltac clean_flag :=
  intros ? Hx H; simpl in Hx; repeat destruct Hx as [<- | Hx]; try contradiction;
  discriminate.

Create HintDb clean_db.
#[local] Hint Resolve clean_json : clean_db.
#[local] Hint Constructors Forall : clean_db.
#[local] Hint Extern 1 (clean (AStr _)) => clean_flag : clean_db.
#[local] Hint Extern 1 (clean (ANum _)) => (intros ? ? ?; discriminate) : clean_db.

Lemma Forall_app_clean (l1 l2 : list Arg) :
  Forall clean l1 -> Forall clean l2 -> Forall clean (l1 ++ l2).
Proof. intros; apply Forall_app; auto. Qed.

Lemma numArg_clean f o : clean (AStr f) -> Forall clean (numArg f o).
Proof. intros; unfold numArg; destruct o as [z|]; [destruct (negb _)|]; eauto with clean_db. Qed.

Lemma quotedArg_clean f o : clean (AStr f) -> Forall clean (quotedArg f o).
Proof. intros; unfold quotedArg; destruct o as [s|]; [destruct (negb _)|]; eauto with clean_db. Qed.

Lemma boolArg_clean f b : clean (AStr f) -> Forall clean (boolArg f b).
Proof. intros; unfold boolArg; destruct b; eauto with clean_db. Qed.

Lemma termArg_clean (f : string) o om :
  (f = "-r" \/ f = "-t") -> Forall clean (termArg f o om).
Proof.
  intros Hf; unfold termArg; destruct o as [s|]; [|constructor].
  destruct (negb _ && negb _); [|constructor].
  destruct s as [|c r].
  - destruct Hf; subst; eauto with clean_db.
  - destruct (Ascii.eqb c "-" || Ascii.eqb c "/");
      destruct Hf; subst; eauto with clean_db.
Qed.

Lemma optionArgs_clean bcp om : Forall clean (optionArgs bcp om).
Proof.
  unfold optionArgs.
  repeat apply Forall_app_clean;
    first [ apply numArg_clean; clean_flag
          | apply quotedArg_clean; clean_flag
          | apply boolArg_clean; clean_flag
          | apply termArg_clean; auto
          | idtac ].
  - unfold formatArgs; destruct om, (unicode bcp); simpl; eauto with clean_db.
  - unfold codePageArgs; destruct (_ && _); [apply quotedArg_clean; clean_flag | constructor].
  - destruct (readOnly bcp); eauto with clean_db.
Qed.

Lemma not_in_clean (l : list Arg) x : Forall clean l -> In x reserved -> ~ In (AStr x) l.
Proof.
  intros Hl Hx Hin. rewrite Forall_forall in Hl. exact (Hl _ Hin x Hx eq_refl).
Qed.

Lemma hintArgs_no_auth bcp : ~ In (AStr "-U") (hintArgs bcp) /\ ~ In (AStr "-P") (hintArgs bcp).
Proof.
  unfold hintArgs; destruct (hintList bcp); simpl; [tauto|].
  split; intros [H|[H|[]]]; try discriminate; rewrite json_head in H; discriminate.
Qed.

Lemma hintList_spec bcp : hintList bcp = spec_hints bcp.
Proof.
  unfold hintList, spec_hints.
  destruct (order bcp) as [o|], (rowsPerBatch bcp) as [n|], (kbPerBatch bcp) as [k|];
    simpl; destruct (tabLock bcp), (checkConstraints bcp), (fireTriggers bcp);
    try destruct (negb (String.eqb o "")); try destruct (negb (Z.eqb n 0));
    try destruct (negb (Z.eqb k 0)); reflexivity.
Qed.

Local Open Scope list_scope.

Lemma authArgs_no_h bcp : ~ In (AStr "-h") (authArgs bcp).
Proof.
  unfold authArgs; destruct (trusted bcp).
  - intros [H|[]]; discriminate.
  - unfold quotedArg; destruct (user bcp) as [u|], (password bcp) as [p|];
      try destruct (negb (String.eqb u "")); try destruct (negb (String.eqb p ""));
      simpl; intros H; repeat destruct H as [H|H]; try contradiction;
      try discriminate; rewrite json_head in H; discriminate.
Qed.

Lemma getCommonArgs_row_split bcp om :
  exists l1 l2, getCommonArgs bcp om = l1 ++ termArg "-r" (rowTerminator bcp) om ++ l2.
Proof.
  exists (numArg "-a" (packetSize bcp) ++ numArg "-b" (batchSize bcp)
          ++ formatArgs bcp om ++ codePageArgs bcp om ++ quotedArg "-e" (errorFile bcp)
          ++ boolArg "-E" (useIdentity bcp) ++ numArg "-F" (firstRow bcp)
          ++ quotedArg "-i" (inputFile bcp)
          ++ (if readOnly bcp then [AStr "-K"; AStr "ReadOnly"] else [])
          ++ boolArg "-k" (keepNulls bcp) ++ numArg "-L" (lastRow bcp)
          ++ numArg "-m" (maxErrors bcp) ++ boolArg "-R" (regional bcp)),
         (quotedArg "-S" (server bcp) ++ termArg "-t" (fieldTerminator bcp) om
          ++ authArgs bcp ++ hintArgs bcp).
  unfold getCommonArgs, optionArgs. rewrite <- !app_assoc. reflexivity.
Qed.

Lemma getCommonArgs_field_split bcp om :
  exists l1 l2, getCommonArgs bcp om = l1 ++ termArg "-t" (fieldTerminator bcp) om ++ l2.
Proof.
  exists (numArg "-a" (packetSize bcp) ++ numArg "-b" (batchSize bcp)
          ++ formatArgs bcp om ++ codePageArgs bcp om ++ quotedArg "-e" (errorFile bcp)
          ++ boolArg "-E" (useIdentity bcp) ++ numArg "-F" (firstRow bcp)
          ++ quotedArg "-i" (inputFile bcp)
          ++ (if readOnly bcp then [AStr "-K"; AStr "ReadOnly"] else [])
          ++ boolArg "-k" (keepNulls bcp) ++ numArg "-L" (lastRow bcp)
          ++ numArg "-m" (maxErrors bcp) ++ boolArg "-R" (regional bcp)
          ++ termArg "-r" (rowTerminator bcp) om ++ quotedArg "-S" (server bcp)),
         (authArgs bcp ++ hintArgs bcp).
  unfold getCommonArgs, optionArgs. rewrite <- !app_assoc. reflexivity.
Qed.

Lemma termArg_dash (flag : string) c r :
  (c = "-" \/ c = "/")%char -> termArg flag (Some (String c r)) false = [AStr (flag ++ String c r)%string].
Proof.
  intros Hc; unfold termArg; simpl.
  destruct Hc as [->| ->]; reflexivity.
Qed.

Lemma termArg_other (flag : string) c r :
  c <> "-"%char -> c <> "/"%char ->
  termArg flag (Some (String c r)) false = [AStr flag; AStr (json_stringify (String c r))].
Proof.
  intros H1 H2; unfold termArg; simpl.
  destruct (Ascii.eqb_spec c "-"); [contradiction|].
  destruct (Ascii.eqb_spec c "/"); [contradiction|]. reflexivity.
Qed.

Lemma termArg_omit (flag : string) o : termArg flag o true = [].
Proof. unfold termArg; destruct o as [s|]; [rewrite andb_false_r|]; reflexivity. Qed.

Lemma plain_not_format a : plain a -> not_format a.
Proof.
  intros [[n ->]|[[s ->]|[f [-> Hf]]]]; unfold not_format.
  - repeat split; discriminate.
  - rewrite json_head; repeat split; discriminate.
  - simpl in Hf; repeat destruct Hf as [<-|Hf]; try contradiction;
      repeat split; discriminate.
Qed.

Ltac fa_cons := repeat first [apply Forall_nil | apply Forall_cons].

Ltac plain_flag :=
  right; right; eexists; split; [reflexivity|]; simpl; tauto.

Lemma numArg_plain f o : In f plain_flags -> Forall plain (numArg f o).
Proof.
  intros Hf; unfold numArg; destruct o as [z|]; [destruct (negb _)|]; fa_cons.
  - right; right; eauto.
  - left; eauto.
Qed.

Lemma quotedArg_plain f o : In f plain_flags -> Forall plain (quotedArg f o).
Proof.
  intros Hf; unfold quotedArg; destruct o as [s|]; [destruct (negb _)|]; fa_cons.
  - right; right; eauto.
  - right; left; eauto.
Qed.

Lemma boolArg_plain f b : In f plain_flags -> Forall plain (boolArg f b).
Proof. intros Hf; unfold boolArg; destruct b; fa_cons; right; right; eauto. Qed.

Lemma authArgs_plain bcp : Forall plain (authArgs bcp).
Proof.
  unfold authArgs; destruct (trusted bcp).
  - fa_cons; plain_flag.
  - apply Forall_app; split; apply quotedArg_plain; simpl; tauto.
Qed.

Lemma hintArgs_plain bcp : Forall plain (hintArgs bcp).
Proof.
  unfold hintArgs; destruct (hintList bcp); fa_cons.
  - plain_flag.
  - right; left; eauto.
Qed.

Lemma termArg_no_switch (f : string) o om :
  (f = "-r" \/ f = "-t") ->
  Forall (fun a => a <> AStr "-w" /\ a <> AStr "-c") (termArg f o om).
Proof.
  intros Hf; unfold termArg; destruct o as [s|]; [|constructor].
  destruct (negb _ && negb _); [|constructor].
  destruct s as [|c r]; [|destruct (Ascii.eqb c "-" || Ascii.eqb c "/")];
    destruct Hf as [-> | ->]; fa_cons; try rewrite json_head; split; discriminate.
Qed.

Lemma codePageArgs_no_switch bcp om :
  Forall (fun a => a <> AStr "-w" /\ a <> AStr "-c") (codePageArgs bcp om).
Proof.
  unfold codePageArgs, quotedArg; destruct (_ && _); [|constructor].
  destruct (codePage bcp) as [s|]; [destruct (negb _)|]; fa_cons;
    try rewrite json_head; split; discriminate.
Qed.

Lemma in_app8 {A} (x : A) l1 l2 l3 l4 l5 l6 l7 l8 :
  In x (l1 ++ l2 ++ l3 ++ l4 ++ l5 ++ l6 ++ l7 ++ l8)
  <-> In x l1 \/ In x l2 \/ In x l3 \/ In x l4 \/ In x l5 \/ In x l6 \/ In x l7 \/ In x l8.
Proof. rewrite !in_app_iff. tauto. Qed.

(** The segments of [getCommonArgs] outside the format switches and the
    terminators only hold plain tokens. *)
Lemma getCommonArgs_rest_plain bcp :
    Forall plain (numArg "-a" (packetSize bcp) ++ numArg "-b" (batchSize bcp))
    /\ Forall plain (quotedArg "-e" (errorFile bcp)
          ++ boolArg "-E" (useIdentity bcp) ++ numArg "-F" (firstRow bcp)
          ++ quotedArg "-i" (inputFile bcp)
          ++ (if readOnly bcp then [AStr "-K"; AStr "ReadOnly"] else [])
          ++ boolArg "-k" (keepNulls bcp) ++ numArg "-L" (lastRow bcp)
          ++ numArg "-m" (maxErrors bcp) ++ boolArg "-R" (regional bcp))
    /\ Forall plain (quotedArg "-S" (server bcp))
    /\ Forall plain (authArgs bcp ++ hintArgs bcp).
Proof.
  split; [|split; [|split]]; repeat (apply Forall_app; split);
    first [ apply numArg_plain | apply quotedArg_plain | apply boolArg_plain
          | apply authArgs_plain | apply hintArgs_plain | idtac ];
    try (simpl; tauto).
  destruct (readOnly bcp); fa_cons; plain_flag.
Qed.

Lemma getCommonArgs_segments bcp om : getCommonArgs bcp om =
    (numArg "-a" (packetSize bcp) ++ numArg "-b" (batchSize bcp))
    ++ formatArgs bcp om ++ codePageArgs bcp om
    ++ (quotedArg "-e" (errorFile bcp)
          ++ boolArg "-E" (useIdentity bcp) ++ numArg "-F" (firstRow bcp)
          ++ quotedArg "-i" (inputFile bcp)
          ++ (if readOnly bcp then [AStr "-K"; AStr "ReadOnly"] else [])
          ++ boolArg "-k" (keepNulls bcp) ++ numArg "-L" (lastRow bcp)
          ++ numArg "-m" (maxErrors bcp) ++ boolArg "-R" (regional bcp))
    ++ termArg "-r" (rowTerminator bcp) om ++ quotedArg "-S" (server bcp)
    ++ termArg "-t" (fieldTerminator bcp) om ++ (authArgs bcp ++ hintArgs bcp).
Proof. unfold getCommonArgs, optionArgs; rewrite <- !app_assoc; reflexivity. Qed.

(** With [omitFormat], no token of the list is a format switch or a
    terminator. *)
Lemma getCommonArgs_omit_not_format bcp : Forall not_format (getCommonArgs bcp true).
Proof.
  destruct (getCommonArgs_rest_plain bcp) as (H1 & H2 & H3 & H4).
  rewrite getCommonArgs_segments, !termArg_omit.
  unfold formatArgs, codePageArgs; simpl negb; rewrite andb_false_r.
  eapply Forall_impl; [apply plain_not_format|].
  apply Forall_app; split; [exact H1|]. apply (Forall_app _ []); split; [fa_cons|].
  apply (Forall_app _ []); split; [fa_cons|].
  apply Forall_app; split; [exact H2|]. apply (Forall_app _ []); split; [fa_cons|].
  apply Forall_app; split; [exact H3|]. apply (Forall_app _ []); split; [fa_cons|].
  exact H4.
Qed.

(* ================================================================== *)
(** * The claims on the argument builder *)

(** C2 (as stated): a terminator beginning with [-] is not emitted as
    [-r<value>] when the list is built with [omitFormat] (bulk insert). *)
Lemma C2_counterexample :
  ~ In (AStr "-r-x") (getCommonArgs (setTerms defaultBcp (Some "-x") None) true)
  /\ ~ In (AStr "-r") (getCommonArgs (setTerms defaultBcp (Some "-x") None) true).
Proof. vm_compute; split; intros H; repeat (destruct H as [H|H]; [discriminate|]); exact H. Qed.

(** C2 (amended): built for a step without a format file ([omitFormat]
    false), a row or field terminator beginning with [-] or [/] is one token
    [-r<value>] / [-t<value>]; any other non-empty terminator gives the flag
    followed by the JSON-quoted value as the next token.  With [omitFormat]
    (bulk insert) no terminator tokens are emitted at all: the list built
    with [omitFormat] holds no token [-r...] or [-t...] (the bare flags
    [-r] and [-t] included). *)
Theorem getCommonArgs_terminators (bcp : Bcp) :
  (forall c r, rowTerminator bcp = Some (String c r) -> (c = "-" \/ c = "/")%char ->
     exists l1 l2, getCommonArgs bcp false = l1 ++ AStr ("-r" ++ String c r)%string :: l2)
  /\ (forall c r, rowTerminator bcp = Some (String c r) -> c <> "-"%char -> c <> "/"%char ->
     exists l1 l2, getCommonArgs bcp false
                   = l1 ++ AStr "-r" :: AStr (json_stringify (String c r)) :: l2)
  /\ (forall c r, fieldTerminator bcp = Some (String c r) -> (c = "-" \/ c = "/")%char ->
     exists l1 l2, getCommonArgs bcp false = l1 ++ AStr ("-t" ++ String c r)%string :: l2)
  /\ (forall c r, fieldTerminator bcp = Some (String c r) -> c <> "-"%char -> c <> "/"%char ->
     exists l1 l2, getCommonArgs bcp false
                   = l1 ++ AStr "-t" :: AStr (json_stringify (String c r)) :: l2)
  /\ termArg "-r" (rowTerminator bcp) true = []
  /\ termArg "-t" (fieldTerminator bcp) true = []
  /\ (forall s, ~ In (AStr ("-r" ++ s)%string) (getCommonArgs bcp true)
               /\ ~ In (AStr ("-t" ++ s)%string) (getCommonArgs bcp true)).
Proof.
  split; [|split; [|split; [|split; [|split; [|split]]]]]; intros.
  - destruct (getCommonArgs_row_split bcp false) as (l1 & l2 & E).
    rewrite E, H, termArg_dash by assumption. exists l1, l2; reflexivity.
  - destruct (getCommonArgs_row_split bcp false) as (l1 & l2 & E).
    rewrite E, H, termArg_other by assumption. exists l1, l2; reflexivity.
  - destruct (getCommonArgs_field_split bcp false) as (l1 & l2 & E).
    rewrite E, H, termArg_dash by assumption. exists l1, l2; reflexivity.
  - destruct (getCommonArgs_field_split bcp false) as (l1 & l2 & E).
    rewrite E, H, termArg_other by assumption. exists l1, l2; reflexivity.
  - apply termArg_omit.
  - apply termArg_omit.
  - pose proof (getCommonArgs_omit_not_format bcp) as H. rewrite Forall_forall in H.
    split; intros Hin; destruct (H _ Hin) as (_ & _ & _ & Hs);
      [apply (proj1 (Hs s)) | apply (proj2 (Hs s))]; reflexivity.
Qed.

(** C3: the hints are collected in the fixed order ORDER, ROWS_PER_BATCH,
    KILOBYTES_PER_BATCH, TABLOCK, CHECK_CONSTRAINTS, FIRE_TRIGGERS, leaving
    out unset ones; the argument list ends with ["-h"] and one token holding
    the JSON-quoted comma-joined hints when there is a hint, and contains no
    ["-h"] at all when there is none. *)
Theorem getCommonArgs_hints (bcp : Bcp) (omitFormat : bool) :
  hintList bcp = spec_hints bcp
  /\ (spec_hints bcp <> [] ->
      exists pre, getCommonArgs bcp omitFormat
                  = pre ++ [AStr "-h"; AStr (json_stringify (join "," (spec_hints bcp)))]
                  /\ ~ In (AStr "-h") pre)
  /\ (spec_hints bcp = [] -> ~ In (AStr "-h") (getCommonArgs bcp omitFormat)).
Proof.
  assert (Hpre : ~ In (AStr "-h") (optionArgs bcp omitFormat ++ authArgs bcp)).
  { rewrite in_app_iff; intros [H|H].
    - exact (not_in_clean _ "-h" (optionArgs_clean bcp omitFormat)
               ltac:(simpl; tauto) H).
    - exact (authArgs_no_h bcp H). }
  rewrite <- hintList_spec. split; [reflexivity|split].
  - intros Hne. exists (optionArgs bcp omitFormat ++ authArgs bcp). split; [|exact Hpre].
    unfold getCommonArgs, hintArgs. rewrite app_assoc.
    destruct (hintList bcp); [contradiction|reflexivity].
  - intros He. unfold getCommonArgs, hintArgs. rewrite He, app_nil_r. exact Hpre.
Qed.

(** C4: with [trusted] the argument list contains ["-T"] and neither ["-U"]
    nor ["-P"], whatever [user] and [password] are. *)
Theorem getCommonArgs_trusted (bcp : Bcp) (omitFormat : bool) :
  trusted bcp = true ->
  In (AStr "-T") (getCommonArgs bcp omitFormat)
  /\ ~ In (AStr "-U") (getCommonArgs bcp omitFormat)
  /\ ~ In (AStr "-P") (getCommonArgs bcp omitFormat).
Proof.
  intros Ht. unfold getCommonArgs, authArgs. rewrite Ht.
  destruct (hintArgs_no_auth bcp) as [HU HP].
  pose proof (optionArgs_clean bcp omitFormat) as Hc.
  split; [|split]; rewrite !in_app_iff.
  - right; left; left; reflexivity.
  - intros [H|[[H|[]]|H]]; [|discriminate|contradiction].
    exact (not_in_clean _ "-U" Hc ltac:(simpl; tauto) H).
  - intros [H|[[H|[]]|H]]; [|discriminate|contradiction].
    exact (not_in_clean _ "-P" Hc ltac:(simpl; tauto) H).
Qed.

Lemma getCommonArgs_trusted_witness :
  trusted (setAuth defaultBcp true (Some "sa") (Some "secret")) = true
  /\ In (AStr "-T") (getCommonArgs (setAuth defaultBcp true (Some "sa") (Some "secret")) false)
  /\ ~ In (AStr "-U") (getCommonArgs (setAuth defaultBcp true (Some "sa") (Some "secret")) false)
  /\ ~ In (AStr "-P") (getCommonArgs (setAuth defaultBcp true (Some "sa") (Some "secret")) false).
Proof.
  split; [reflexivity|]. apply getCommonArgs_trusted. reflexivity.
Defined.

(* ================================================================== *)
(** * Lemmas on strings and on the reader *)

Lemma str_app_assoc (a b c : string) : ((a ++ b) ++ c)%string = (a ++ b ++ c)%string.
Proof. induction a; simpl; congruence. Qed.

Lemma str_app_nil_r (a : string) : (a ++ "")%string = a.
Proof. induction a; simpl; congruence. Qed.

Lemma str_length_app (a b : string) : String.length (a ++ b) = String.length a + String.length b.
Proof. induction a; simpl; auto. Qed.

Lemma substring_app_skip (p s : string) (i n : nat) :
  substring (String.length p + i) n (p ++ s) = substring i n s.
Proof. induction p; simpl; auto. Qed.

Lemma substring_prefix (v s : string) : substring 0 (String.length v) (v ++ s) = v.
Proof. induction v; simpl; [destruct s|]; simpl; congruence. Qed.

Lemma substring_full (s : string) : substring 0 (String.length s) s = s.
Proof. pose proof (substring_prefix s "") as H. rewrite str_app_nil_r in H. exact H. Qed.

Lemma prefix_length (t x : string) : String.prefix t x = true -> String.length t <= String.length x.
Proof.
  revert x; induction t as [|a t IH]; intros x H; simpl; [lia|].
  destruct x as [|b x]; simpl in H; [discriminate|].
  destruct (ascii_dec a b); [|discriminate]. simpl. apply le_n_S, IH, H.
Qed.

Lemma prefix_app (t x y : string) :
  String.length t <= String.length x -> String.prefix t (x ++ y) = String.prefix t x.
Proof.
  revert x; induction t as [|a t IH]; intros x H; [destruct x, y; reflexivity|].
  destruct x as [|b x]; simpl in H; [lia|]. simpl.
  destruct (ascii_dec a b); [apply IH; lia|reflexivity].
Qed.

Lemma prefix_app_true (t x y : string) :
  String.prefix t x = true -> String.prefix t (x ++ y) = true.
Proof.
  intros H. rewrite prefix_app; [exact H|]. apply prefix_length, H.
Qed.

Lemma find_from_length (t x : string) k j :
  find_from t x k = Some j -> String.length t <= String.length x.
Proof.
  revert k; induction x as [|c x IH]; intros k H; cbn [find_from] in H.
  - destruct (String.prefix t "") eqn:E; [|discriminate]. apply prefix_length, E.
  - destruct (String.prefix t (String c x)) eqn:E.
    + apply prefix_length, E.
    + simpl. specialize (IH _ H). lia.
Qed.

Lemma find_from_app (t x y : string) k j :
  find_from t x k = Some j -> find_from t (x ++ y) k = Some j.
Proof.
  revert k; induction x as [|c x IH]; intros k H.
  - cbn [find_from] in H. destruct (String.prefix t "") eqn:E; [|discriminate].
    destruct t; [|discriminate]. destruct y; exact H.
  - pose proof (find_from_length _ _ _ _ H) as Hl.
    cbn [find_from] in H. change (String c x ++ y)%string with (String c (x ++ y)).
    cbn [find_from]. rewrite <- (prefix_app t (String c x) y Hl) in H.
    change (String c (x ++ y)) with (String c x ++ y)%string.
    destruct (String.prefix t (String c x ++ y)); [exact H|].
    apply IH, H.
Qed.

Lemma find_from_shift (t x : string) n k :
  find_from t x (n + k) = option_map (Nat.add n) (find_from t x k).
Proof.
  revert k; induction x as [|c x IH]; intros k; cbn [find_from].
  - destruct (String.prefix t ""); reflexivity.
  - destruct (String.prefix t (String c x)); [reflexivity|].
    rewrite <- IH. f_equal. lia.
Qed.

Lemma find_from_ge (t x : string) k j : find_from t x k = Some j -> k <= j.
Proof.
  revert k; induction x as [|c x IH]; intros k H; cbn [find_from] in H.
  - destruct (String.prefix t ""); inversion H; lia.
  - destruct (String.prefix t (String c x)); [inversion H; lia|].
    specialize (IH _ H). lia.
Qed.

Lemma indexOf_shift (p s t : string) i :
  indexOf (p ++ s) t (String.length p + i)
  = option_map (Nat.add (String.length p)) (indexOf s t i).
Proof.
  unfold indexOf. rewrite str_length_app.
  destruct (String.eqb t ""); simpl.
  - f_equal. lia.
  - replace (String.length p + String.length s - (String.length p + i))
      with (String.length s - i) by lia.
    rewrite substring_app_skip. apply find_from_shift.
Qed.

Lemma indexOf_app_0 (x y t : string) j :
  indexOf x t 0 = Some j -> indexOf (x ++ y) t 0 = Some j.
Proof.
  unfold indexOf. destruct (String.eqb t ""); [auto|].
  rewrite !Nat.sub_0_r, !substring_full. apply find_from_app.
Qed.

Lemma slice_shift (p s : string) i d :
  slice (p ++ s) (String.length p + i) (String.length p + d) = slice s i d.
Proof.
  unfold slice. replace (String.length p + d - (String.length p + i)) with (d - i) by lia.
  apply substring_app_skip.
Qed.

Lemma row_loop_shift (p s : string) fs i o :
  row_loop (p ++ s) fs (String.length p + i) o
  = option_map (fun r => (fst r, String.length p + snd r)) (row_loop s fs i o).
Proof.
  revert i o; induction fs as [|f fs IH]; intros i o; simpl; [reflexivity|].
  rewrite indexOf_shift. destruct (indexOf s (terminator f) i) as [dex|]; simpl; [|reflexivity].
  rewrite slice_shift.
  replace (String.length p + dex + String.length (terminator f))
    with (String.length p + (dex + String.length (terminator f))) by lia.
  apply IH.
Qed.

Lemma opt_nat_eqb_eq a b : opt_nat_eqb a b = true -> a = b.
Proof.
  destruct a, b; simpl; try discriminate; auto.
  intros H; apply Nat.eqb_eq in H; subst; reflexivity.
Qed.

Lemma row_loop_enc fs vs rest o :
  row_ok fs vs = true ->
  row_loop (enc_row fs vs ++ rest) fs 0 o
  = Some (decode_row fs vs o, String.length (enc_row fs vs)).
Proof.
  revert vs rest o; induction fs as [|f fs IH]; intros [|v vs] rest o H;
    simpl in H; try discriminate.
  - reflexivity.
  - apply andb_prop in H as [Hv Hr]. apply opt_nat_eqb_eq in Hv.
    cbn [enc_row row_loop decode_row].
    set (t := terminator f) in *. set (E := enc_row fs vs) in *.
    replace ((v ++ t ++ E) ++ rest)%string with ((v ++ t) ++ (E ++ rest))%string
      by (rewrite !str_app_assoc; reflexivity).
    rewrite (indexOf_app_0 _ _ _ _ Hv).
    replace (slice ((v ++ t) ++ E ++ rest) 0 (String.length v)) with v
      by (unfold slice; rewrite Nat.sub_0_r, str_app_assoc; symmetry; apply substring_prefix).
    replace (String.length v + String.length t) with (String.length (v ++ t) + 0)
      by (rewrite str_length_app; lia).
    rewrite row_loop_shift. subst E. rewrite IH by exact Hr. simpl.
    f_equal. f_equal. rewrite !str_length_app. lia.
Qed.

Lemma data_loop_mono fuel d fs i acc r :
  data_loop fuel d fs i acc = Some r ->
  forall fuel', fuel <= fuel' -> data_loop fuel' d fs i acc = Some r.
Proof.
  revert i acc; induction fuel as [|fuel IH]; intros i acc H fuel' Hle; [discriminate|].
  destruct fuel' as [|fuel']; [lia|]. simpl in *.
  destruct (Nat.ltb i (String.length d)); [|exact H].
  destruct (row_loop d fs i []) as [[o i']|]; [|exact H].
  apply IH; [exact H|lia].
Qed.

Lemma readExport_returns_unique d fs r1 r2 :
  readExport_returns d fs r1 -> readExport_returns d fs r2 -> r1 = r2.
Proof.
  intros [f1 H1] [f2 H2].
  pose proof (data_loop_mono _ _ _ _ _ _ H1 (Nat.max f1 f2) ltac:(lia)) as E1.
  pose proof (data_loop_mono _ _ _ _ _ _ H2 (Nat.max f1 f2) ltac:(lia)) as E2.
  congruence.
Qed.

Lemma row_loop_none_term s fs i o :
  row_loop s fs i o = None -> exists f, In f fs /\ terminator f <> "".
Proof.
  revert i o; induction fs as [|f fs IH]; intros i o H; simpl in H; [discriminate|].
  destruct (String.eqb_spec (terminator f) "") as [E|E].
  - unfold indexOf in H. rewrite E in H. simpl in H.
    destruct (IH _ _ H) as (g & Hg & Hne). exists g; simpl; auto.
  - exists f; simpl; auto.
Qed.

Lemma enc_row_nonempty fs vs f :
  row_ok fs vs = true -> In f fs -> terminator f <> "" -> 0 < String.length (enc_row fs vs).
Proof.
  revert vs; induction fs as [|g fs IH]; intros [|v vs] Hok Hin Hne;
    simpl in Hok; try discriminate; [contradiction|].
  apply andb_prop in Hok as [_ Hok]. simpl. rewrite !str_length_app.
  destruct Hin as [->|Hin].
  - destruct (terminator f); [contradiction|simpl; lia].
  - specialize (IH _ Hok Hin Hne). lia.
Qed.

Lemma data_loop_enc fs tail rows :
  Forall (fun vs => row_ok fs vs = true) rows ->
  row_loop tail fs 0 [] = None ->
  forall P acc fuel, List.length rows < fuel ->
  data_loop fuel (P ++ enc_rows fs rows ++ tail) fs (String.length P) acc
  = Some (acc ++ map (fun vs => decode_row fs vs []) rows).
Proof.
  intros Hrows Htail.
  destruct (row_loop_none_term _ _ _ _ Htail) as (f & Hf & Hne).
  induction Hrows as [|vs rows Hvs Hrows IH]; intros P acc fuel Hfuel.
  - destruct fuel as [|fuel]; [simpl in Hfuel; lia|]. cbn [enc_rows fold_right].
    simpl (String.append "" tail). rewrite app_nil_r. cbn [data_loop].
    destruct (Nat.ltb _ _); [|reflexivity].
    rewrite <- (Nat.add_0_r (String.length P)), row_loop_shift, Htail. reflexivity.
  - destruct fuel as [|fuel]; [simpl in Hfuel; lia|]. cbn [enc_rows fold_right].
    fold (enc_rows fs rows).
    pose proof (enc_row_nonempty _ _ _ Hvs Hf Hne) as Hpos.
    cbn [data_loop].
    replace (Nat.ltb (String.length P)
               (String.length (P ++ (enc_row fs vs ++ enc_rows fs rows) ++ tail)))
      with true by (symmetry; apply Nat.ltb_lt; rewrite !str_length_app; lia).
    rewrite <- (Nat.add_0_r (String.length P)), row_loop_shift.
    rewrite str_app_assoc, row_loop_enc by exact Hvs. cbn [option_map fst snd].
    replace (P ++ enc_row fs vs ++ enc_rows fs rows ++ tail)%string
      with ((P ++ enc_row fs vs) ++ enc_rows fs rows ++ tail)%string
      by apply str_app_assoc.
    rewrite <- str_length_app, IH by (simpl in Hfuel; lia).
    rewrite <- app_assoc. reflexivity.
Qed.

Lemma substring_length_le n m s : String.length (substring n m s) <= m.
Proof.
  revert n m; induction s as [|c s IH]; intros [|n] [|m]; simpl; try lia.
  - specialize (IH 0 m). lia.
  - apply IH.
  - apply IH.
Qed.

Lemma find_from_bound (t x : string) k j :
  find_from t x k = Some j -> j + String.length t <= k + String.length x.
Proof.
  revert k; induction x as [|c x IH]; intros k H; cbn [find_from] in H.
  - destruct (String.prefix t "") eqn:E; inversion H; subst.
    pose proof (prefix_length _ _ E). simpl in *. lia.
  - destruct (String.prefix t (String c x)) eqn:E.
    + inversion H; subst. pose proof (prefix_length _ _ E). lia.
    + specialize (IH _ H). simpl. lia.
Qed.

Lemma indexOf_nonempty_bounds (d t : string) i dex :
  t <> "" -> indexOf d t i = Some dex ->
  i <= dex /\ dex + String.length t <= String.length d.
Proof.
  intros Ht H. unfold indexOf in H.
  destruct (String.eqb_spec t "") as [E|_]; [contradiction|].
  pose proof (find_from_ge _ _ _ _ H).
  pose proof (find_from_bound _ _ _ _ H).
  pose proof (substring_length_le i (String.length d - i) d).
  assert (0 < String.length t) by (destruct t; [contradiction|simpl; lia]).
  lia.
Qed.

Definition term_nonempty (f : Field) : Prop := terminator f <> "".

Lemma row_loop_ge d fs i o o' j :
  Forall term_nonempty fs -> row_loop d fs i o = Some (o', j) ->
  i <= j /\ (fs <> [] -> i < j).
Proof.
  intros Hfs; revert i o; induction Hfs as [|f fs Hf Hfs IH]; intros i o H; simpl in H.
  - inversion H; subst. split; [lia|congruence].
  - destruct (indexOf d (terminator f) i) as [dex|] eqn:E; [|discriminate].
    destruct (indexOf_nonempty_bounds _ _ _ _ Hf E) as [H1 _].
    assert (0 < String.length (terminator f))
      by (unfold term_nonempty in Hf; destruct (terminator f); [contradiction|simpl; lia]).
    destruct (IH _ _ H) as [H2 _]. split; [lia|intros; lia].
Qed.

Lemma data_loop_terminates d fs :
  fs <> [] -> Forall term_nonempty fs ->
  forall n i acc, String.length d - i <= n -> exists r, data_loop (S n) d fs i acc = Some r.
Proof.
  intros Hne Hfs; induction n as [|n IH]; intros i acc Hn; cbn [data_loop].
  - destruct (Nat.ltb_spec i (String.length d)); [lia|eauto].
  - destruct (Nat.ltb_spec i (String.length d)); [|eauto].
    destruct (row_loop d fs i []) as [[o j]|] eqn:E; [|eauto].
    destruct (row_loop_ge _ _ _ _ _ _ Hfs E) as [_ Hlt].
    specialize (Hlt Hne). apply IH. lia.
Qed.

Lemma data_loop_no_fields d : forall fuel i acc,
  i < String.length d -> data_loop fuel d [] i acc = None.
Proof.
  induction fuel as [|fuel IH]; intros i acc Hi; [reflexivity|].
  cbn [data_loop]. destruct (Nat.ltb_spec i (String.length d)); [|lia].
  simpl. apply IH, Hi.
Qed.

Lemma row_loop_empty_terms d fs o :
  Forall (fun f => terminator f = "") fs -> exists o', row_loop d fs 0 o = Some (o', 0).
Proof.
  intros Hfs; revert o; induction Hfs as [|f fs Hf Hfs IH]; intros o; simpl; [eauto|].
  unfold indexOf at 1. rewrite Hf. simpl. apply IH.
Qed.

Lemma data_loop_empty_terms d fs : forall fuel acc,
  0 < String.length d -> Forall (fun f => terminator f = "") fs ->
  data_loop fuel d fs 0 acc = None.
Proof.
  induction fuel as [|fuel IH]; intros acc Hd Hfs; [reflexivity|].
  cbn [data_loop]. destruct (Nat.ltb_spec 0 (String.length d)); [|lia].
  destruct (row_loop_empty_terms d fs [] Hfs) as [o' ->]. apply IH; assumption.
Qed.

(* ================================================================== *)
(** * The claims on the reader and the codec *)

(** C5: when the buffer is a sequence of complete rows followed by a
    trailing part in which some field's terminator is missing, [readExport]
    returns exactly the decoded complete rows (the trailing part is dropped
    without an error); a buffer whose first row is already truncated gives
    no rows at all. *)
Theorem readExport_truncated (fs : list Field) :
  (forall rows tail,
     Forall (fun vs => row_ok fs vs = true) rows ->
     row_loop tail fs 0 [] = None ->
     forall r, readExport_returns (enc_rows fs rows ++ tail) fs r
               <-> r = map (fun vs => decode_row fs vs []) rows)
  /\ (forall data, row_loop data fs 0 [] = None ->
      forall r, readExport_returns data fs r <-> r = []).
Proof.
  assert (Main : forall rows tail,
     Forall (fun vs => row_ok fs vs = true) rows ->
     row_loop tail fs 0 [] = None ->
     forall r, readExport_returns (enc_rows fs rows ++ tail) fs r
               <-> r = map (fun vs => decode_row fs vs []) rows).
  { intros rows tail Hrows Htail r.
    assert (Hrun : readExport_returns (enc_rows fs rows ++ tail) fs
                     (map (fun vs => decode_row fs vs []) rows)).
    { exists (S (List.length rows)).
      exact (data_loop_enc fs tail rows Hrows Htail "" [] (S (List.length rows)) ltac:(lia)). }
    split; [intros H; exact (readExport_returns_unique _ _ _ _ H Hrun)|intros ->; exact Hrun]. }
  split; [exact Main|].
  intros data Hd r. exact (Main [] data (Forall_nil _) Hd r).
Qed.

(** C6: the field codec. *)
Theorem fieldDeserialize_spec (value : string) (field : Field) :
  (value = "" -> fieldDeserialize value field = VNull)
  /\ (value = NUL -> fieldDeserialize value field = VStr "")
  /\ (value <> "" -> value <> NUL ->
      fieldDeserialize value field
      = match typesMap (type field) with
        | CDate => VDate value
        | CNumber => VNumber value
        | CBoolean => VBool (String.eqb value "1")
        | CNone => VStr value
        end)
  /\ (forall b, typesMap (type field) = CBoolean -> value <> "" -> value <> NUL ->
      (fieldDeserialize value field = VBool b <-> b = String.eqb value "1")).
Proof.
  unfold fieldDeserialize.
  destruct (String.eqb_spec value "") as [E|E]; [|destruct (String.eqb_spec value NUL) as [E'|E']].
  - subst. repeat split; intros; try reflexivity; try contradiction; discriminate.
  - subst. repeat split; intros; try reflexivity; try contradiction; discriminate.
  - repeat split; intros; try contradiction; try reflexivity.
    + rewrite H in H2. inversion H2. reflexivity.
    + rewrite H. subst. reflexivity.
Qed.

(** C8: the loop of [readExport] finishes on every buffer when there is at
    least one field and no terminator is empty; with no fields, or with
    only empty terminators, it never finishes on a non-empty buffer. *)
Theorem readExport_termination :
  (forall data fs, fs <> [] -> Forall term_nonempty fs ->
     exists rows, readExport_returns data fs rows)
  /\ (forall data, data <> "" -> readExport_diverges data [])
  /\ (forall data fs, data <> "" -> Forall (fun f => terminator f = "") fs ->
        readExport_diverges data fs).
Proof.
  split; [|split].
  - intros data fs Hne Hfs.
    destruct (data_loop_terminates data fs Hne Hfs (String.length data) 0 [] ltac:(lia))
      as [r Hr].
    exists r, (S (String.length data)). exact Hr.
  - intros data Hd fuel. apply data_loop_no_fields.
    destruct data; [contradiction|simpl; lia].
  - intros data fs Hd Hfs fuel. apply data_loop_empty_terms; [|exact Hfs].
    destruct data; [contradiction|simpl; lia].
Qed.

(* ------------------------------------------------------------------ *)
(** ** Concrete instances *)

Lemma readExport_scenario :
  readExport_returns ("42" ++ TAB ++ "1" ++ LF ++ "7" ++ TAB ++ "0" ++ LF)%string fieldsIntBit
    [[("f0", VNumber "42"); ("f1", VBool true)];
     [("f0", VNumber "7"); ("f1", VBool false)]].
Proof. exists 10. reflexivity. Qed.

Lemma getCommonArgs_terminators_witness :
  exists l1 l2, getCommonArgs (setTerms defaultBcp (Some "-x") (Some "|")) false
                = l1 ++ AStr "-r-x" :: l2.
Proof.
  exact (proj1 (getCommonArgs_terminators (setTerms defaultBcp (Some "-x") (Some "|")))
           "-"%char "x" eq_refl (or_introl eq_refl)).
Defined.

Lemma readExport_truncated_witness :
  readExport_returns (enc_rows fieldsIntBit [["42"; "1"]] ++ "7" ++ TAB ++ "0")%string
    fieldsIntBit [[("f0", VNumber "42"); ("f1", VBool true)]].
Proof.
  exact (proj2 (proj1 (readExport_truncated fieldsIntBit) [["42"; "1"]] ("7" ++ TAB ++ "0")%string
           ltac:(repeat constructor) eq_refl _) eq_refl).
Defined.

Lemma fieldDeserialize_spec_witness :
  fieldDeserialize "1" (mkField "f1" "SQLBIT" LF false) = VBool true.
Proof.
  exact (proj2 (proj2 (proj2 (proj2 (fieldDeserialize_spec "1" (mkField "f1" "SQLBIT" LF false))))
           true eq_refl ltac:(discriminate) ltac:(discriminate)) eq_refl).
Defined.

Lemma readExport_termination_witness :
  (exists rows, readExport_returns ("1" ++ TAB)%string fieldsIntBit rows)
  /\ readExport_diverges "x" [].
Proof.
  split.
  - apply (proj1 readExport_termination); [discriminate|repeat constructor; discriminate].
  - apply (proj1 (proj2 readExport_termination)). discriminate.
Defined.

Lemma rows_copied_ex : rows_copied ("Starting copy..." ++ LF ++ "12 rows copied.")%string = Some 12%Z.
Proof. reflexivity. Qed.

(* ================================================================== *)
(** * Lemmas on the pipelines *)

Lemma exportOptions_props (overrides : option Obj) :
  prop (exportOptions overrides) "formatFile" = JUndef
  /\ prop (exportOptions overrides) "exportFile" = JUndef.
Proof.
  unfold exportOptions, mergeOptions, exportDefaults.
  destruct overrides as [ov|]; [|split; reflexivity].
  cbn [map fst].
  destruct (obj_get ov "read") as [r|], (obj_get ov "keepFiles") as [k|];
    destruct (negb (truthy (prop _ "read"))); split; reflexivity.
Qed.

Lemma exportOptions_read_false (ov : Obj) v :
  obj_get ov "read" = Some v -> truthy v = false ->
  truthy (prop (exportOptions (Some ov)) "read") = false
  /\ prop (exportOptions (Some ov)) "keepFiles" = JBool true.
Proof.
  intros Hr Hv. unfold exportOptions, mergeOptions, exportDefaults.
  cbn [map fst]. rewrite Hr.
  destruct (obj_get ov "keepFiles"); cbn; rewrite Hv; cbn; split; first [exact Hv | reflexivity].
Qed.

Lemma exportOptions_default (ov : option Obj) :
  (forall o, ov = Some o -> obj_get o "read" = None /\ obj_get o "keepFiles" = None) ->
  exportOptions ov = exportDefaults.
Proof.
  intros H. destruct ov as [o|]; [|reflexivity].
  destruct (H o eq_refl) as [Hr Hk].
  unfold exportOptions, mergeOptions, exportDefaults. cbn [map fst].
  rewrite Hr, Hk. reflexivity.
Qed.

Lemma formatGenerate_events bcp env table file args :
  forall e, In e (fst (formatGenerate bcp env table file args)) ->
  (exists cmd, e = EvExec cmd) \/ e = EvLoadFormat file.
Proof.
  intros e. unfold formatGenerate.
  destruct (env_format_exec_ok env); [destruct (env_format env)|]; simpl;
    intros H; repeat destruct H as [<-|H]; try contradiction; eauto.
Qed.

Lemma list_indexOf_in (l : list string) x : In x l -> exists k, list_indexOf l x = Some k.
Proof.
  induction l as [|y l IH]; simpl; [contradiction|]. intros H.
  destruct (String.eqb_spec x y); [eauto|].
  destruct H as [->|H]; [contradiction|]. destruct (IH H) as [k ->]. eauto.
Qed.

Lemma list_indexOf_notin (l : list string) x : ~ In x l -> list_indexOf l x = None.
Proof.
  induction l as [|y l IH]; simpl; [reflexivity|]. intros H.
  destruct (String.eqb_spec x y); [subst; tauto|]. rewrite IH by tauto. reflexivity.
Qed.

Lemma checkColumns_first_missing fullTable names pre c post :
  Forall (fun x => In (toLowerCase x) names) pre -> ~ In (toLowerCase c) names ->
  forall fs, checkColumns fullTable names fs (pre ++ c :: post)
             = Err (ErrMessage (fullTable ++ " does not contain column " ++ c)).
Proof.
  intros Hpre Hc. induction Hpre as [|x pre Hx Hpre IH]; intros fs; simpl.
  - rewrite list_indexOf_notin by exact Hc. reflexivity.
  - destruct (list_indexOf_in _ _ Hx) as [k ->]. apply IH.
Qed.

(** The two paths of [prepareBulkInsert] after [mergeOptions], when the
    caller passes no path or string paths. *)
Lemma importOptions_strings (base : string) (ov : option Obj) :
  (forall o k v, ov = Some o -> (k = "formatFile" \/ k = "importFile") ->
                 obj_get o k = Some v -> exists s, v = JStr s) ->
  exists ff imf,
    path_arg (prop (mergeOptions (importDefaults base) ov) "formatFile") = Some ff
    /\ path_arg (prop (mergeOptions (importDefaults base) ov) "importFile") = Some imf
    /\ (forall o s, ov = Some o -> obj_get o "importFile" = Some (JStr s) -> imf = s)
    /\ ((forall o, ov = Some o -> obj_get o "importFile" = None) ->
        imf = (base ++ "_import.dat")%string).
Proof.
  intros H. destruct ov as [o|].
  - simpl.
    destruct (obj_get o "formatFile") as [v1|] eqn:E1;
      [destruct (H o _ v1 eq_refl (or_introl eq_refl) E1) as [s1 ->]|];
    (destruct (obj_get o "importFile") as [v2|] eqn:E2;
      [destruct (H o _ v2 eq_refl (or_intror eq_refl) E2) as [s2 ->]|]);
    simpl; do 2 eexists; (split; [reflexivity|]); (split; [reflexivity|]);
    (split; [intros o' s [= <-] E; congruence
            | intros Hn; specialize (Hn o eq_refl); congruence]).
  - simpl. do 2 eexists. split; [reflexivity|]. split; [reflexivity|].
    split; [discriminate|reflexivity].
Qed.

(* ================================================================== *)
(** * The claims on the pipelines *)

(** C1 (as stated): the missing-column error comes after [bcp] has been run
    to generate the format file. *)
Lemma prepareBulkInsert_C1_counterexample :
  exists cmd,
    In (EvExec cmd) (fst (prepareBulkInsert defaultBcp (envOk "1_2_3" fmtId "" "")
                            "t" ["nope"] None))
    /\ snd (prepareBulkInsert defaultBcp (envOk "1_2_3" fmtId "" "") "t" ["nope"] None)
       = Err (ErrMessage "[dbo].[t] does not contain column nope").
Proof. eexists. split; [simpl; right; left; reflexivity|reflexivity]. Qed.

(** C1 (amended): when the [formatFile] and [importFile] options, if given,
    are strings (any other value makes [Path.resolve] throw first) and a
    requested column matches no field name of the generated format
    (case-insensitively, as [toLowerCase] folds it), [prepareBulkInsert] fails with
    ["<qualified table> does not contain column <column>"] for the first
    such column; by then the directories have been created and [bcp] has
    been run to write and load the format file, but no import file is
    created. *)
Theorem prepareBulkInsert_missing_column (bcp : Bcp) (env : Env) (table : string)
  (columns : list string) (overrides : option Obj) (fmt : FormatFile)
  (pre : list string) (c : string) (post : list string) :
  (forall o k v, overrides = Some o -> (k = "formatFile" \/ k = "importFile") ->
                 obj_get o k = Some v -> exists s, v = JStr s) ->
  env_mkdirs_ok env = true -> env_format_exec_ok env = true -> env_format env = Some fmt ->
  columns = pre ++ c :: post ->
  Forall (fun x => In (toLowerCase x) (map (fun f => toLowerCase (name f)) (fields fmt))) pre ->
  ~ In (toLowerCase c) (map (fun f => toLowerCase (name f)) (fields fmt)) ->
  exists formatFile importFile cmd,
    prepareBulkInsert bcp env table columns overrides
    = ([EvMkdirs [formatFile; importFile]; EvExec cmd; EvLoadFormat formatFile],
       Err (ErrMessage (getQualifiedTable bcp table ++ " does not contain column " ++ c))).
Proof.
  intros Hp Hm Hx Hf -> Hpre Hc.
  destruct (importOptions_strings (tempFile bcp (env_stamp env)) overrides Hp)
    as (ff & imf & E1 & E2 & _).
  unfold prepareBulkInsert, formatGenerate. cbv zeta.
  rewrite E1, E2, Hm, Hx, Hf. cbn [negb fst snd app].
  rewrite checkColumns_first_missing by assumption.
  do 3 eexists. reflexivity.
Qed.

Lemma prepareBulkInsert_missing_column_witness :
  exists formatFile importFile cmd,
    prepareBulkInsert defaultBcp (envOk "1_2_3" fmtId "" "") "t" ["ID"; "nope"] None
    = ([EvMkdirs [formatFile; importFile]; EvExec cmd; EvLoadFormat formatFile],
       Err (ErrMessage (getQualifiedTable defaultBcp "t" ++ " does not contain column "
                        ++ "nope"))).
Proof.
  apply (prepareBulkInsert_missing_column defaultBcp (envOk "1_2_3" fmtId "" "") "t"
           ["ID"; "nope"] None fmtId ["ID"] "nope" []);
    [discriminate|reflexivity|reflexivity|reflexivity|reflexivity| |].
  - repeat constructor.
  - simpl. intros [H|[]]. discriminate.
Defined.

(** C7: with a falsy [read] the run performs no [Fs.unlink] at all, whatever
    [keepFiles] says; with the default options a run whose steps succeed
    ends by unlinking the format file and the export file, and succeeds
    when both unlinks do. *)
Theorem bulkExport_keepFiles (bcp : Bcp) (env : Env) (fuel : nat) (table : string) :
  (forall ov v, obj_get ov "read" = Some v -> truthy v = false ->
     forall f, ~ In (EvUnlink f) (fst (bulkExport bcp env fuel table (Some ov))))
  /\ (forall ov fmt stdout data rows,
       (forall o, ov = Some o -> obj_get o "read" = None /\ obj_get o "keepFiles" = None) ->
       env_mkdirs_ok env = true -> env_format_exec_ok env = true ->
       env_format env = Some fmt -> env_out_exec env = Some stdout ->
       env_file env = Some data -> data_loop fuel data (fields fmt) 0 [] = Some rows ->
       exists pre,
         fst (bulkExport bcp env fuel table ov)
         = pre ++ [EvUnlink (tempFile bcp (env_stamp env) ++ "_format.xml");
                   EvUnlink (tempFile bcp (env_stamp env) ++ "_export.dat")]
         /\ (env_unlink_ok env (tempFile bcp (env_stamp env) ++ "_format.xml") = true ->
             env_unlink_ok env (tempFile bcp (env_stamp env) ++ "_export.dat") = true ->
             exists res, snd (bulkExport bcp env fuel table ov) = Ok res)).
Proof.
  split.
  - intros ov v Hr Hv f.
    destruct (exportOptions_read_false ov v Hr Hv) as [R K].
    unfold bulkExport. cbv zeta. rewrite R, K. cbn [negb truthy].
    destruct (env_mkdirs_ok env); cbn [negb];
      [|simpl; intros [H|[]]; discriminate].
    destruct (formatGenerate _ _ _ _ _) as [ev2 fres] eqn:Efg.
    pose proof (formatGenerate_events bcp env (getQualifiedTable bcp table)
      (or_path (prop (exportOptions (Some ov)) "formatFile")
         (tempFile bcp (env_stamp env) ++ "_format.xml"))
      (getCommonArgs bcp false)) as Hev.
    rewrite Efg in Hev; simpl in Hev.
    assert (Hno : ~ In (EvUnlink f) ev2)
      by (intros H; destruct (Hev _ H) as [[cmd E]|E]; discriminate).
    destruct fres as [format|e].
    + destruct (env_out_exec env) as [stdout|]; simpl;
        intros [H|H]; [discriminate| |discriminate|];
        rewrite ?app_nil_r, in_app_iff in H;
        destruct H as [H|[H|[]]]; [contradiction|discriminate|contradiction|discriminate].
    + simpl. intros [H|H]; [discriminate|contradiction].
  - intros ov fmt stdout data rows Hov Hm Hx Hf Ho Hd Hrows.
    unfold bulkExport. rewrite (exportOptions_default ov Hov).
    unfold formatGenerate. cbv zeta.
    rewrite Hm, Hx, Hf, Ho, Hd, Hrows. cbn.
    match goal with |- exists pre, ?l = _ /\ _ => exists (removelast (removelast l)) end.
    split; [reflexivity|].
    intros H1 H2. rewrite H1, H2. eexists. reflexivity.
Qed.

Lemma bulkExport_keepFiles_witness :
  ~ In (EvUnlink "/home/user/.bcp/1_2_3_format.xml")
      (fst (bulkExport defaultBcp (envOk "1_2_3" fmtId "" "") 3 "t"
              (Some [("read", JBool false); ("keepFiles", JBool false)]))).
Proof.
  exact (proj1 (bulkExport_keepFiles defaultBcp (envOk "1_2_3" fmtId "" "") 3 "t")
           [("read", JBool false); ("keepFiles", JBool false)] (JBool false)
           eq_refl eq_refl "/home/user/.bcp/1_2_3_format.xml").
Defined.

Lemma bulkExport_stdout_irrelevant bcp env fuel table ov stdout s :
  env_out_exec env = Some stdout ->
  is_ok (snd (bulkExport bcp (setStdout env s) fuel table ov))
  = is_ok (snd (bulkExport bcp env fuel table ov)).
Proof.
  intros Ho. unfold bulkExport, formatGenerate. cbv zeta. cbn [env_stamp env_mkdirs_ok
    env_format_exec_ok env_format env_out_exec env_file env_unlink_ok setStdout].
  rewrite Ho.
  destruct (env_mkdirs_ok env); [|reflexivity]. cbn [negb].
  destruct (env_format_exec_ok env); [|reflexivity].
  destruct (env_format env) as [fmt|]; [|reflexivity].
  destruct (truthy (prop (exportOptions ov) "read")).
  - destruct (env_file env) as [data|]; [|reflexivity].
    destruct (data_loop fuel data (fields fmt) 0 []); [|reflexivity].
    destruct (truthy (prop (exportOptions ov) "keepFiles")); unfold cleanup; cbn;
      try destruct (_ && _); reflexivity.
  - destruct (truthy (prop (exportOptions ov) "keepFiles")); unfold cleanup; cbn;
      try destruct (_ && _); reflexivity.
Qed.

(** C9: when bcp succeeds but its output has no ["<digits> rows copied."],
    a run whose other steps succeed still succeeds and reports
    [rowCount = 0]; whether a run succeeds never depends on that output. *)
Theorem bulkExport_no_summary (bcp : Bcp) (env : Env) (fuel : nat) (table : string)
  (ov : option Obj) (fmt : FormatFile) (stdout data : string) (rows : list Row) :
  env_mkdirs_ok env = true -> env_format_exec_ok env = true -> env_format env = Some fmt ->
  env_out_exec env = Some stdout -> rows_copied stdout = None ->
  env_file env = Some data -> data_loop fuel data (fields fmt) 0 [] = Some rows ->
  (forall f, env_unlink_ok env f = true) ->
  (exists res, snd (bulkExport bcp env fuel table ov) = Ok res /\ d_rowCount (snd res) = 0%Z)
  /\ (forall s, is_ok (snd (bulkExport bcp (setStdout env s) fuel table ov))
                = is_ok (snd (bulkExport bcp env fuel table ov))).
Proof.
  intros Hm Hx Hf Ho Hrc Hd Hrows Hu. split.
  - unfold bulkExport, formatGenerate. cbv zeta.
    rewrite Hm, Hx, Hf, Ho, Hrc. cbn [negb].
    destruct (truthy (prop (exportOptions ov) "read")).
    + rewrite Hd, Hrows.
      destruct (truthy (prop (exportOptions ov) "keepFiles")); cbn;
        [|rewrite !Hu]; eexists; split; reflexivity.
    + destruct (truthy (prop (exportOptions ov) "keepFiles")); cbn;
        [|rewrite !Hu]; eexists; split; reflexivity.
  - intros s. apply (bulkExport_stdout_irrelevant _ _ _ _ _ stdout), Ho.
Qed.

Lemma bulkExport_no_summary_witness :
  exists res, snd (bulkExport defaultBcp (envOk "1_2_3" fmtId "no summary" "") 3 "t" None)
              = Ok res /\ d_rowCount (snd res) = 0%Z.
Proof.
  exact (proj1 (bulkExport_no_summary defaultBcp (envOk "1_2_3" fmtId "no summary" "") 3 "t"
                  None fmtId "no summary" "" [] eq_refl eq_refl eq_refl eq_refl eq_refl
                  eq_refl eq_refl (fun _ => eq_refl))).
Defined.

(** C10: after [mergeOptions] the options of [bulkExport] have no
    [formatFile] or [exportFile], so the run always works on the fresh
    paths [tempFile(bcp) + "_format.xml"] and [tempFile(bcp) + "_export.dat"]
    under the configured temp directory, whatever options were passed. *)
Theorem bulkExport_temp_paths (bcp : Bcp) (env : Env) (fuel : nat) (table : string)
  (ov : option Obj) :
  prop (exportOptions ov) "formatFile" = JUndef
  /\ prop (exportOptions ov) "exportFile" = JUndef
  /\ (exists rest, fst (bulkExport bcp env fuel table ov)
        = EvMkdirs [(path_join (tmp bcp) (env_stamp env) ++ "_format.xml")%string;
                    (path_join (tmp bcp) (env_stamp env) ++ "_export.dat")%string] :: rest)
  /\ (forall res, snd (bulkExport bcp env fuel table ov) = Ok res ->
        d_formatFile (snd res) = (path_join (tmp bcp) (env_stamp env) ++ "_format.xml")%string
        /\ d_exportFile (snd res) = (path_join (tmp bcp) (env_stamp env) ++ "_export.dat")%string).
Proof.
  destruct (exportOptions_props ov) as [A B].
  split; [exact A|split; [exact B|]].
  unfold bulkExport, formatGenerate. cbv zeta. rewrite A, B. cbn [or_path].
  destruct (env_mkdirs_ok env); cbn [negb]; [|split; [eexists; reflexivity|discriminate]].
  destruct (env_format_exec_ok env);
    [|split; [eexists; reflexivity|discriminate]].
  destruct (env_format env) as [fmt|]; [|split; [eexists; reflexivity|discriminate]].
  destruct (env_out_exec env) as [stdout|]; [|split; [eexists; reflexivity|discriminate]].
  destruct (truthy (prop (exportOptions ov) "read")).
  - destruct (env_file env) as [data|]; [|split; [eexists; reflexivity|discriminate]].
    destruct (data_loop fuel data (fields fmt) 0 []);
      [|split; [eexists; reflexivity|discriminate]].
    destruct (truthy (prop (exportOptions ov) "keepFiles")); cbn.
    + split; [eexists; reflexivity|]. intros res H; inversion H; subst; split; reflexivity.
    + destruct (_ && _); (split; [eexists; reflexivity|]); intros res H; inversion H;
        subst; split; reflexivity.
  - destruct (truthy (prop (exportOptions ov) "keepFiles")); cbn.
    + split; [eexists; reflexivity|]. intros res H; inversion H; subst; split; reflexivity.
    + destruct (_ && _); (split; [eexists; reflexivity|]); intros res H; inversion H;
        subst; split; reflexivity.
Qed.

Lemma getCommonArgs_hints_witness :
  exists pre,
    getCommonArgs (setHints defaultBcp (Some "id") (Some 100%Z) None true false true) false
    = pre ++ [AStr "-h"; AStr (json_stringify "ORDER(id),ROWS_PER_BATCH=100,TABLOCK,FIRE_TRIGGERS")]
    /\ ~ In (AStr "-h") pre.
Proof.
  exact (proj1 (proj2 (getCommonArgs_hints
           (setHints defaultBcp (Some "id") (Some 100%Z) None true false true) false))
           ltac:(discriminate)).
Defined.

Lemma bulkExport_temp_paths_witness :
  exists rest, fst (bulkExport defaultBcp (envOk "1_2_3" fmtId "" "") 3 "t"
                      (Some [("formatFile", JStr "/data/mine.xml");
                             ("exportFile", JStr "/data/mine.dat")]))
               = EvMkdirs ["/home/user/.bcp/1_2_3_format.xml";
                           "/home/user/.bcp/1_2_3_export.dat"] :: rest.
Proof.
  exact (proj1 (proj2 (proj2 (bulkExport_temp_paths defaultBcp (envOk "1_2_3" fmtId "" "") 3 "t"
           (Some [("formatFile", JStr "/data/mine.xml"); ("exportFile", JStr "/data/mine.dat")]))))).
Defined.

(* ================================================================== *)
(** * Further properties of the module *)

(** ** Quoting with [JSON.stringify] *)

Lemma json_unescape_char (c : ascii) (r : string) :
  json_unescape (json_escape_char c ++ r) = option_map (String c) (json_unescape r).
Proof.
  destruct c as [b0 b1 b2 b3 b4 b5 b6 b7];
    destruct b0, b1, b2, b3, b4, b5, b6, b7; reflexivity.
Qed.

Lemma json_unescape_escape (s : string) : json_unescape (json_escape s) = Some s.
Proof.
  induction s as [|c s IH]; [reflexivity|].
  simpl. rewrite json_unescape_char, IH. reflexivity.
Qed.

Lemma substring_app_exact (a b : string) :
  substring 0 (String.length a) (a ++ b) = a /\ substring (String.length a) (String.length b) (a ++ b) = b.
Proof.
  split; [apply substring_prefix|].
  rewrite <- (Nat.add_0_r (String.length a)), substring_app_skip. apply substring_full.
Qed.

(** Every value the module quotes ([-C], [-e], [-i], [-S], [-U], [-P], the
    hint clause, file names and the quoted table) reads back as itself
    with [JSON.parse], so the quoting is lossless and injective. *)
Theorem json_stringify_roundtrip (s : string) :
  json_parse_string (json_stringify s) = Some s.
Proof.
  rewrite json_head. unfold json_parse_string.
  change (Ascii.eqb (ascii_of_nat 34) (ascii_of_nat 34)) with true. cbv iota.
  rewrite str_length_app. simpl (String.length (chr 34)). rewrite Nat.add_1_r.
  destruct (substring_app_exact (json_escape s) (chr 34)) as [H1 H2].
  simpl (String.length (chr 34)) in H2. rewrite H2, String.eqb_refl, H1.
  apply json_unescape_escape.
Qed.

(** ** [mergeOptions] *)





(** ** The format switches of [getCommonArgs] *)

(** With [omitFormat] set (the [in] step of a bulk insert, which reads a
    format file) [getCommonArgs] pushes none of [-w], [-c], [-C], [-r...],
    [-t...]; without it the list holds [-w] exactly when [unicode] is set
    and [-c] exactly when it is not, so never both. *)
Theorem getCommonArgs_format_switches (bcp : Bcp) :
  Forall not_format (getCommonArgs bcp true)
  /\ (In (AStr "-w") (getCommonArgs bcp false) <-> unicode bcp = true)
  /\ (In (AStr "-c") (getCommonArgs bcp false) <-> unicode bcp = false).
Proof.
  pose proof (getCommonArgs_rest_plain bcp) as Hrest.
  pose proof (getCommonArgs_segments bcp) as Hsplit.
  assert (Hw : forall x, x = "-w" \/ x = "-c" ->
     In (AStr x) (getCommonArgs bcp false) <-> In (AStr x) (formatArgs bcp false)).
  { intros x Hx. destruct Hrest as (H1 & H2 & H3 & H4).
    pose proof (termArg_no_switch "-r" (rowTerminator bcp) false (or_introl eq_refl)) as Hr.
    pose proof (termArg_no_switch "-t" (fieldTerminator bcp) false (or_intror eq_refl)) as Ht.
    pose proof (codePageArgs_no_switch bcp false) as Hc.
    assert (Hp : forall l, Forall plain l -> ~ In (AStr x) l).
    { intros l Hl Hin. rewrite Forall_forall in Hl.
      destruct (plain_not_format _ (Hl _ Hin)) as (Hw' & Hc' & _).
      destruct Hx; subst; auto. }
    assert (Hs : forall l, Forall (fun a => a <> AStr "-w" /\ a <> AStr "-c") l ->
                           ~ In (AStr x) l).
    { intros l Hl Hin. rewrite Forall_forall in Hl. destruct (Hl _ Hin).
      destruct Hx; subst; auto. }
    rewrite Hsplit, in_app8. split; [|tauto].
    intros [H|[H|[H|[H|[H|[H|[H|H]]]]]]];
      [ exfalso; exact (Hp _ H1 H) | exact H | exfalso; exact (Hs _ Hc H)
      | exfalso; exact (Hp _ H2 H) | exfalso; exact (Hs _ Hr H)
      | exfalso; exact (Hp _ H3 H) | exfalso; exact (Hs _ Ht H)
      | exfalso; exact (Hp _ H4 H) ]. }
  split; [|split].
  - apply getCommonArgs_omit_not_format.
  - rewrite Hw by auto. unfold formatArgs; simpl negb.
    destruct (unicode bcp); simpl; split; intros H; auto; try discriminate.
    destruct H as [H|[]]; discriminate.
  - rewrite Hw by auto. unfold formatArgs; simpl negb.
    destruct (unicode bcp); simpl; split; intros H; auto; try discriminate.
    destruct H as [H|[]]; discriminate.
Qed.

(** ** SQL Server authentication in [getCommonArgs] *)

Lemma hintArgs_no_T bcp : ~ In (AStr "-T") (hintArgs bcp).
Proof.
  unfold hintArgs; destruct (hintList bcp); simpl; [tauto|].
  intros [H|[H|[]]]; try discriminate; rewrite json_head in H; discriminate.
Qed.

Lemma quotedArg_in (f x : string) o :
  In (AStr x) (quotedArg f o) -> str_truthy o = true /\ (x = f \/ exists s, x = json_stringify s).
Proof.
  unfold quotedArg, str_truthy; destruct o as [s|]; [|simpl; tauto].
  destruct (negb _); simpl; [|tauto].
  intros [H|[H|[]]]; injection H as <-; split; eauto.
Qed.

(** Without [trusted], [getCommonArgs] pushes no [-T]; it pushes [-U]
    exactly when [user] is a non-empty string and [-P] exactly when
    [password] is, each directly followed by the JSON-quoted value, whatever
    the other options are. *)
Theorem getCommonArgs_login (bcp : Bcp) (omitFormat : bool) :
  trusted bcp = false ->
  ~ In (AStr "-T") (getCommonArgs bcp omitFormat)
  /\ (In (AStr "-U") (getCommonArgs bcp omitFormat) <-> str_truthy (user bcp) = true)
  /\ (In (AStr "-P") (getCommonArgs bcp omitFormat) <-> str_truthy (password bcp) = true)
  /\ (forall u, user bcp = Some u -> u <> ""%string ->
        exists l1 l2, getCommonArgs bcp omitFormat
                      = l1 ++ AStr "-U" :: AStr (json_stringify u) :: l2)
  /\ (forall p, password bcp = Some p -> p <> ""%string ->
        exists l1 l2, getCommonArgs bcp omitFormat
                      = l1 ++ AStr "-P" :: AStr (json_stringify p) :: l2).
Proof.
  intros Ht.
  assert (Ha : authArgs bcp = quotedArg "-U" (user bcp) ++ quotedArg "-P" (password bcp))
    by (unfold authArgs; rewrite Ht; reflexivity).
  pose proof (optionArgs_clean bcp omitFormat) as Hc.
  pose proof (hintArgs_no_auth bcp) as [HhU HhP].
  assert (HU : forall x, In (AStr x) (quotedArg "-U" (user bcp)) -> x <> "-P"%string /\ x <> "-T"%string
                                                                 /\ (x = "-U"%string -> str_truthy (user bcp) = true)).
  { intros x Hx. apply quotedArg_in in Hx as [Hs [->|[s ->]]].
    - repeat split; try discriminate; auto.
    - rewrite json_head; repeat split; try discriminate. }
  assert (HP : forall x, In (AStr x) (quotedArg "-P" (password bcp)) -> x <> "-U"%string /\ x <> "-T"%string
                                                                 /\ (x = "-P"%string -> str_truthy (password bcp) = true)).
  { intros x Hx. apply quotedArg_in in Hx as [Hs [->|[s ->]]].
    - repeat split; try discriminate; auto.
    - rewrite json_head; repeat split; try discriminate. }
  unfold getCommonArgs. rewrite Ha.
  split; [|split; [|split; [|split]]].
  - rewrite !in_app_iff. intros [H|[[H|H]|H]].
    + exact (not_in_clean _ "-T" Hc ltac:(simpl; tauto) H).
    + exact (proj1 (proj2 (HU _ H)) eq_refl).
    + exact (proj1 (proj2 (HP _ H)) eq_refl).
    + exact (hintArgs_no_T _ H).
  - rewrite !in_app_iff. split.
    + intros [H|[[H|H]|H]].
      * destruct (not_in_clean _ "-U" Hc ltac:(simpl; tauto) H).
      * exact (proj2 (proj2 (HU _ H)) eq_refl).
      * destruct (proj1 (HP _ H) eq_refl).
      * destruct (HhU H).
    + intros Hs. right; left; left. unfold quotedArg, str_truthy in *.
      destruct (user bcp) as [u|]; [|discriminate]. rewrite Hs. left; reflexivity.
  - rewrite !in_app_iff. split.
    + intros [H|[[H|H]|H]].
      * destruct (not_in_clean _ "-P" Hc ltac:(simpl; tauto) H).
      * destruct (proj1 (HU _ H) eq_refl).
      * exact (proj2 (proj2 (HP _ H)) eq_refl).
      * destruct (HhP H).
    + intros Hs. right; left; right. unfold quotedArg, str_truthy in *.
      destruct (password bcp) as [p|]; [|discriminate]. rewrite Hs. left; reflexivity.
  - intros u Hu Hne. exists (optionArgs bcp omitFormat),
      (quotedArg "-P" (password bcp) ++ hintArgs bcp).
    unfold quotedArg at 1. rewrite Hu.
    destruct (String.eqb_spec u ""); [contradiction|]. reflexivity.
  - intros p Hp Hne. exists (optionArgs bcp omitFormat ++ quotedArg "-U" (user bcp)),
      (hintArgs bcp).
    replace (quotedArg "-P" (password bcp)) with [AStr "-P"; AStr (json_stringify p)].
    + rewrite <- !app_assoc. reflexivity.
    + unfold quotedArg. rewrite Hp.
      destruct (String.eqb_spec p ""); [contradiction|]. reflexivity.
Qed.

Lemma getCommonArgs_login_witness :
  trusted (setAuth defaultBcp false (Some "sa") (Some "pw")) = false
  /\ str_truthy (user (setAuth defaultBcp false (Some "sa") (Some "pw"))) = true.
Proof.
  split; [reflexivity|].
  apply (proj1 (proj2 (getCommonArgs_login (setAuth defaultBcp false (Some "sa") (Some "pw"))
                         false eq_refl))).
  vm_compute. repeat (first [left; reflexivity | right]).
Defined.

(** ** Deleting files in [bulkInsert] and [bulkExport] *)

(** [keepFiles] as [bulkInsert] reads it after [mergeOptions]. *)
Lemma insertOptions_keep (ov : option Obj) :
  truthy (prop (mergeOptions insertDefaults ov) "keepFiles")
  = match ov with
    | Some o => match obj_get o "keepFiles" with Some v => truthy v | None => false end
    | None => false
    end.
Proof. destruct ov as [o|]; [|reflexivity]. simpl. destruct (obj_get o "keepFiles"); reflexivity. Qed.

(** [bulkInsert] runs [bcp ... in] first; it deletes files only after that
    run succeeded and [keepFiles] is not truthy, and then it deletes exactly
    the format file and the data file it was given (the caller's own files);
    it reports success exactly when the run succeeded and either the files
    are kept or both deletions succeeded. *)
Theorem bulkInsert_cleanup (bcp : Bcp) (env : Env) (importFilename : string)
  (format : FormatFile) (table : string) (overrides : option Obj) :
  let keep := match overrides with
              | Some o => match obj_get o "keepFiles" with Some v => truthy v | None => false end
              | None => false
              end in
  let (evs, res) := bulkInsert bcp env importFilename format table overrides in
  (exists cmd, hd_error evs = Some (EvExec cmd))
  /\ (forall f, In (EvUnlink f) evs -> env_out_exec env <> None /\ keep = false
                                      /\ (f = filename format \/ f = importFilename))
  /\ (env_out_exec env <> None -> keep = false ->
      In (EvUnlink (filename format)) evs /\ In (EvUnlink importFilename) evs)
  /\ (res = Ok tt <-> env_out_exec env <> None
                     /\ (keep = true \/ (env_unlink_ok env (filename format) = true
                                         /\ env_unlink_ok env importFilename = true))).
Proof.
  cbv zeta. unfold bulkInsert. rewrite insertOptions_keep.
  set (keep := match overrides with
               | Some o => match obj_get o "keepFiles" with Some v => truthy v | None => false end
               | None => false end).
  destruct (env_out_exec env) as [out|].
  - destruct keep; simpl.
    + split; [eauto|]. split; [intros f [H|[]]; discriminate|].
      split; [intros _ H; discriminate|]. split; [intros _; split; [discriminate|auto]|auto].
    + split; [eauto|]. split.
      { intros f [H|[H|[H|[]]]]; try discriminate; injection H as <-;
          repeat split; auto; discriminate. }
      split; [intros _ _; split; auto|].
      destruct (env_unlink_ok env (filename format)), (env_unlink_ok env importFilename);
        simpl; split; intros H; try discriminate; auto;
        try (split; [discriminate|right; auto]);
        destruct H as [_ [H|[H1 H2]]]; discriminate.
  - simpl. split; [eauto|]. split; [intros f [H|[]]; discriminate|].
    split; [intros H; contradiction|]. split; [discriminate|]. intros [H _]; contradiction.
Qed.

Ltac no_unlink :=
  split; [intros ? H; simpl in H; repeat destruct H as [H|H]; try discriminate; contradiction
         | intros ? _; left; intros ? H; simpl in H;
           repeat destruct H as [H|H]; try discriminate; contradiction].

(** A failed [bulkExport] has either deleted nothing, or a deletion failed;
    files are deleted only after the format step, the [bcp ... out] run and
    the reading succeeded (when [read] is truthy), and only the two working
    files are deleted. *)
Theorem bulkExport_errors (bcp : Bcp) (env : Env) (fuel : nat) (table : string)
  (overrides : option Obj) :
  let (evs, res) := bulkExport bcp env fuel table overrides in
  (forall f, In (EvUnlink f) evs ->
     env_mkdirs_ok env = true /\ env_format_exec_ok env = true
     /\ env_format env <> None /\ env_out_exec env <> None
     /\ (truthy (prop (exportOptions overrides) "read") = true -> env_file env <> None)
     /\ (f = or_path (prop (exportOptions overrides) "formatFile")
                     (tempFile bcp (env_stamp env) ++ "_format.xml")
         \/ f = or_path (prop (exportOptions overrides) "exportFile")
                        (tempFile bcp (env_stamp env) ++ "_export.dat")))
  /\ (forall e, res = Err e ->
        (forall f, ~ In (EvUnlink f) evs)
        \/ (exists f, In (EvUnlink f) evs /\ env_unlink_ok env f = false)).
Proof.
  unfold bulkExport, formatGenerate, cleanup.
  set (ff := or_path (prop (exportOptions overrides) "formatFile")
                     (tempFile bcp (env_stamp env) ++ "_format.xml")).
  set (xf := or_path (prop (exportOptions overrides) "exportFile")
                     (tempFile bcp (env_stamp env) ++ "_export.dat")).
  destruct (env_mkdirs_ok env); simpl; [|no_unlink].
  destruct (env_format_exec_ok env); simpl; [|no_unlink].
  destruct (env_format env) as [fmt|] eqn:Ef; simpl; [|no_unlink].
  destruct (env_out_exec env) as [out|] eqn:Eo; simpl; [|no_unlink].
  destruct (truthy (prop (exportOptions overrides) "read")) eqn:Er.
  - destruct (env_file env) as [data|] eqn:Ed; [|no_unlink].
    destruct (data_loop fuel data (fields fmt) 0 []) as [rows|]; [|no_unlink].
    destruct (truthy (prop (exportOptions overrides) "keepFiles")); [no_unlink|].
    split.
    + intros f H. simpl in H.
      repeat destruct H as [H|H]; try discriminate; try contradiction;
        injection H as <-; repeat split; auto; discriminate.
    + intros e He. right.
      destruct (env_unlink_ok env ff) eqn:E1; [destruct (env_unlink_ok env xf) eqn:E2|];
        simpl in He; try discriminate.
      * exists xf. split; [|exact E2]. simpl; repeat (first [left; reflexivity | right]).
      * exists ff. split; [|exact E1]. simpl; repeat (first [left; reflexivity | right]).
  - destruct (truthy (prop (exportOptions overrides) "keepFiles")); [no_unlink|].
    split.
    + intros f H. simpl in H.
      repeat destruct H as [H|H]; try discriminate; try contradiction;
        injection H as <-; repeat split; auto; discriminate.
    + intros e He. right.
      destruct (env_unlink_ok env ff) eqn:E1; [destruct (env_unlink_ok env xf) eqn:E2|];
        simpl in He; try discriminate.
      * exists xf. split; [|exact E2]. simpl; repeat (first [left; reflexivity | right]).
      * exists ff. split; [|exact E1]. simpl; repeat (first [left; reflexivity | right]).
Qed.

(** ** The import handle built by [prepareBulkInsert] *)











(** ** What [Bcp.readExport] returns *)

Lemma prefix_self (t : string) : String.prefix t t = true.
Proof.
  induction t as [|c t IH]; simpl; [reflexivity|].
  destruct (ascii_dec c c); [exact IH|contradiction].
Qed.

Lemma row_loop_bounds d fs : forall i o o' j,
  i <= String.length d -> row_loop d fs i o = Some (o', j) ->
  i <= j <= String.length d.
Proof.
  induction fs as [|f fs IH]; intros i o o' j Hi H; simpl in H.
  - injection H as _ <-. lia.
  - destruct (indexOf d (terminator f) i) as [dex|] eqn:E; [|discriminate].
    destruct (String.eqb_spec (terminator f) "") as [Ht|Ht].
    + unfold indexOf in E. rewrite Ht in E. simpl in E. injection E as <-.
      rewrite Ht in H. simpl in H. apply IH in H; lia.
    + destruct (indexOf_nonempty_bounds _ _ _ _ Ht E).
      apply IH in H; lia.
Qed.

(** A row that consumes nothing is read again and again. *)
Lemma data_loop_stuck d fs i o :
  i < String.length d -> row_loop d fs i [] = Some (o, i) ->
  forall fuel acc, data_loop fuel d fs i acc = None.
Proof.
  intros Hi Hr fuel. induction fuel as [|fuel IH]; intros acc; simpl; [reflexivity|].
  apply Nat.ltb_lt in Hi. rewrite Hi, Hr. apply IH.
Qed.

Lemma data_loop_count fuel d fs : forall i acc r,
  i <= String.length d -> data_loop fuel d fs i acc = Some r ->
  List.length r <= List.length acc + (String.length d - i).
Proof.
  induction fuel as [|fuel IH]; intros i acc r Hi H; simpl in H; [discriminate|].
  destruct (Nat.ltb_spec i (String.length d)) as [Hlt|Hge].
  - destruct (row_loop d fs i []) as [[o j]|] eqn:Hr.
    + destruct (row_loop_bounds d fs i [] o j Hi Hr) as [Hij Hj].
      destruct (Nat.eq_dec i j) as [<-|Hne].
      * rewrite (data_loop_stuck d fs i o Hlt Hr) in H. discriminate.
      * apply IH in H; [|exact Hj]. rewrite length_app in H. simpl in H. lia.
    + injection H as <-. lia.
  - injection H as <-. lia.
Qed.

(** [readExport] never returns more rows than the file has characters:
    every row it keeps consumed at least one character, since a row that
    consumes nothing keeps the loop running forever. *)
Theorem readExport_row_count (data : string) (fs : list Field) (rows : list Row) :
  readExport_returns data fs rows -> List.length rows <= String.length data.
Proof.
  intros [fuel H]. apply data_loop_count in H; [simpl in H; lia|lia].
Qed.

Lemma readExport_row_count_witness :
  exists rows, readExport_returns ("1" ++ TAB ++ "0" ++ LF) fieldsIntBit rows
               /\ List.length rows <= String.length ("1" ++ TAB ++ "0" ++ LF).
Proof.
  eexists. split.
  - exists 3. vm_compute. reflexivity.
  - apply (readExport_row_count _ fieldsIntBit). exists 3. vm_compute. reflexivity.
Defined.

Lemma obj_set_keys (o : Row) k v :
  ~ In k (map fst o) -> map fst (obj_set o k v) = (map fst o ++ [k])%list.
Proof.
  induction o as [|[k' v'] o IH]; simpl; [reflexivity|]. intros Hk.
  destruct (String.eqb_spec k k') as [->|_]; [tauto|]. simpl. rewrite IH by tauto.
  reflexivity.
Qed.

Lemma row_loop_keys d fs : forall i o o' j,
  NoDup (map fst o ++ map name fs) -> row_loop d fs i o = Some (o', j) ->
  map fst o' = (map fst o ++ map name fs)%list.
Proof.
  induction fs as [|f fs IH]; intros i o o' j Hnd H; simpl in H.
  - injection H as <- _. rewrite app_nil_r. reflexivity.
  - destruct (indexOf d (terminator f) i) as [dex|]; [|discriminate].
    simpl in Hnd.
    assert (Hk : ~ In (name f) (map fst o)).
    { intros Hin. apply NoDup_remove_2 in Hnd. apply Hnd, in_app_iff. left; exact Hin. }
    apply IH in H.
    + rewrite H, obj_set_keys by exact Hk. rewrite <- app_assoc. reflexivity.
    + rewrite obj_set_keys by exact Hk. rewrite <- app_assoc. exact Hnd.
Qed.

Lemma data_loop_keys fuel d fs : forall i acc r,
  NoDup (map name fs) -> data_loop fuel d fs i acc = Some r ->
  Forall (fun o => map fst o = map name fs) acc ->
  Forall (fun o => map fst o = map name fs) r.
Proof.
  induction fuel as [|fuel IH]; intros i acc r Hnd H Hacc; simpl in H; [discriminate|].
  destruct (Nat.ltb i (String.length d)); [|injection H as <-; exact Hacc].
  destruct (row_loop d fs i []) as [[o j]|] eqn:Hr; [|injection H as <-; exact Hacc].
  apply IH in H; auto. apply Forall_app; split; [exact Hacc|].
  constructor; [|constructor]. apply (row_loop_keys d fs i [] o j); [exact Hnd|exact Hr].
Qed.

(** When the field names are distinct, none is [__proto__] (assigning it
    sets the prototype instead of adding a key) and none is a non-empty
    string of digits (JS lists such integer-like keys first, in ascending
    order), every row [readExport] returns is an object whose own keys are
    exactly the field names, in the order of the fields. *)
Theorem readExport_row_keys (data : string) (fs : list Field) (rows : list Row) :
  NoDup (map name fs) ->
  Forall (fun n => (n = ""%string \/ all_digits n = false) /\ n <> "__proto__"%string)
         (map name fs) ->
  readExport_returns data fs rows ->
  Forall (fun o => map fst o = map name fs) rows.
Proof.
  intros Hnd _ [fuel H]. eapply data_loop_keys; eauto.
Qed.

Lemma readExport_row_keys_witness :
  exists rows, readExport_returns ("1" ++ TAB ++ "0" ++ LF) fieldsIntBit rows
               /\ Forall (fun o => map fst o = map name fieldsIntBit) rows.
Proof.
  eexists. split.
  - exists 3. vm_compute. reflexivity.
  - apply (readExport_row_keys ("1" ++ TAB ++ "0" ++ LF)).
    + vm_compute. repeat constructor; simpl; intuition discriminate.
    + vm_compute. repeat constructor; (right; reflexivity) || discriminate.
    + exists 3. vm_compute. reflexivity.
Defined.

(** ** The row count in the output of [bcp ... out] *)

Lemma digits_prefix_app (ds s : string) :
  all_digits ds = true ->
  (forall c r, s = String c r -> is_digit c = false) ->
  digits_prefix (ds ++ s) = (ds, s).
Proof.
  intros Hds Hs. induction ds as [|c ds IH]; simpl.
  - destruct s as [|c r]; [reflexivity|]. simpl. rewrite (Hs c r eq_refl). reflexivity.
  - unfold all_digits in Hds. simpl in Hds. apply andb_prop in Hds as [Hc Hds].
    rewrite Hc, IH by exact Hds. reflexivity.
Qed.

(** When no digit comes before it, the number [bulkExport] reports as
    [rowCount] is the run of digits directly before [" rows copied."],
    whatever follows. *)
Theorem rows_copied_first (p ds q : string) :
  no_digits p = true -> ds <> ""%string -> all_digits ds = true ->
  rows_copied (p ++ ds ++ " rows copied." ++ q) = Some (digits_value 0 ds).
Proof.
  intros Hp Hne Hds.
  remember (" rows copied." ++ q)%string as w eqn:Ew.
  induction p as [|c p IH].
  - destruct ds as [|d ds']; [contradiction|].
    cbn [append rows_copied].
    change (String d (ds' ++ w)) with (String d ds' ++ w)%string.
    rewrite digits_prefix_app; [|exact Hds|].
    + destruct (String.eqb_spec (String d ds') ""); [discriminate|]. simpl negb.
      subst w. rewrite prefix_app_true by apply prefix_self. reflexivity.
    + intros c r E. subst w. injection E as <- _. reflexivity.
  - unfold no_digits in Hp. simpl in Hp. apply andb_prop in Hp as [Hc Hp].
    simpl append. cbn [rows_copied digits_prefix].
    destruct (is_digit c); [discriminate|]. simpl. apply IH, Hp.
Qed.

Lemma rows_copied_first_witness :
  rows_copied ("Starting copy..." ++ "42" ++ " rows copied." ++ " Clock Time") = Some 42%Z.
Proof. apply (rows_copied_first "Starting copy..." "42" " Clock Time"); [reflexivity|discriminate|reflexivity]. Defined.

(** ** The rows and details [bulkExport] reports *)

Lemma exportOptions_read (ov : option Obj) :
  truthy (prop (exportOptions ov) "read")
  = match ov with
    | Some o => match obj_get o "read" with Some v => truthy v | None => true end
    | None => true
    end.
Proof.
  destruct ov as [o|]; [|reflexivity].
  unfold exportOptions, mergeOptions, exportDefaults. cbn [map fst].
  destruct (obj_get o "read") as [v|] eqn:Hr; [destruct (truthy v) eqn:Hv|];
    destruct (obj_get o "keepFiles"); cbn; rewrite ?Hv; cbn; rewrite ?Hv; reflexivity.
Qed.

(** A successful [bulkExport] reports the output of [bcp ... out] and the
    row count read from it (0 without a summary line).  Unless [read] is
    given and falsy, it has read the export file and returns exactly the
    rows [readExport] decodes from it with the generated format; with a
    falsy [read] it never reads the file and returns [null] for the rows. *)
Theorem bulkExport_result (bcp : Bcp) (env : Env) (fuel : nat) (table : string)
  (overrides : option Obj) :
  let read := match overrides with
              | Some o => match obj_get o "read" with Some v => truthy v | None => true end
              | None => true
              end in
  let (evs, res) := bulkExport bcp env fuel table overrides in
  forall rows det, res = Ok (rows, det) ->
    (exists out, env_out_exec env = Some out /\ d_stdout det = Some out
                 /\ d_rowCount det = match rows_copied out with Some n => n | None => 0%Z end)
    /\ (read = false -> rows = None /\ forall f, ~ In (EvReadFile f) evs)
    /\ (read = true -> exists fmt data rs, env_format env = Some fmt /\ env_file env = Some data
                        /\ rows = Some rs /\ readExport_returns data (fields fmt) rs).
Proof.
  cbv zeta. rewrite <- exportOptions_read.
  unfold bulkExport, formatGenerate, cleanup.
  destruct (env_mkdirs_ok env); simpl; [|discriminate].
  destruct (env_format_exec_ok env); simpl; [|discriminate].
  destruct (env_format env) as [fmt|] eqn:Ef; simpl; [|discriminate].
  destruct (env_out_exec env) as [out|] eqn:Eo; simpl; [|discriminate].
  destruct (truthy (prop (exportOptions overrides) "read")) eqn:Er.
  - destruct (env_file env) as [data|] eqn:Ed; [|discriminate].
    destruct (data_loop fuel data (fields fmt) 0 []) as [rs|] eqn:El; [|discriminate].
    destruct (truthy (prop (exportOptions overrides) "keepFiles")); [|destruct (_ && _)];
      simpl; intros rows det H; try discriminate; injection H as <- <-;
      (split; [eexists; repeat split; reflexivity|]);
      (split; [discriminate|]); intros _; exists fmt, data, rs; repeat split; auto;
      exists fuel; exact El.
  - destruct (truthy (prop (exportOptions overrides) "keepFiles")); [|destruct (_ && _)];
      simpl; intros rows det H; try discriminate; injection H as <- <-;
      (split; [eexists; repeat split; reflexivity|]);
      (split; [|discriminate]); intros _; (split; [reflexivity|]);
      intros f Hf; simpl in Hf; repeat destruct Hf as [Hf|Hf]; try discriminate; contradiction.
Qed.
